(** * Global Chocolate Sales Dashboard: a model of [app.py]

    The dashboard is one Python file built on pandas and sqlite3.  This
    development embeds the parts of it that carry logic:

    - [load_data]: cleaning of the CSV (currency stripping, date
      parsing, sale-type classification, column renaming) and the
      full-table replace of the [sales] table;
    - the [sales] table itself with the statements the application
      runs on it ([init_db], the INSERT, UPDATE and DELETE of the
      owner's forms, [load_data_from_db]);
    - the role restriction at the top of [main];
    - the two alert computations at the bottom of [main].

    Amounts are Python floats, that is IEEE 754 binary64 numbers; they
    are modelled by the primitive floats of the kernel, which are the
    same numbers with the same rounding.  Integers are [Z].  A data
    frame is a list of column labels and a list of rows.  Python
    exceptions are the [Raise] case of a result type. *)

From Stdlib Require Import ZArith List String Ascii Bool Lia Floats.
From Stdlib Require Import DecimalString Sorted.
Import ListNotations.

Local Open Scope string_scope.
Local Open Scope list_scope.

(* ================================================================== *)
(** * Definitions *)
(* ================================================================== *)

(** ** Exceptions and results *)

(** The exceptions that the modelled lines can raise.  [KeyError] is a
    missing column label, [ValueError] a string that does not parse,
    [TypeError] an ordering comparison on a value that is not a
    number, [OperationalError] is [sqlite3.OperationalError]. *)
Inductive exn : Type :=
| KeyError (label : string)
| ValueError
| TypeError
| OperationalError.

Inductive result (A : Type) : Type :=
| Ok (a : A)
| Raise (e : exn).

Arguments Ok {A} a.
Arguments Raise {A} e.

Definition bind {A B : Type} (r : result A) (k : A -> result B) : result B :=
  match r with
  | Ok a => k a
  | Raise e => Raise e
  end.

Notation "x <- e ;; k" := (bind e (fun x => k))
  (at level 61, e at next level, right associativity).

(** Evaluation of [f] on every element, left to right, stopping at the
    first exception. *)
Fixpoint mapM {A B : Type} (f : A -> result B) (l : list A) : result (list B) :=
  match l with
  | [] => Ok []
  | x :: xs => y <- f x ;; ys <- mapM f xs ;; Ok (y :: ys)
  end.

(** ** Cells and frames *)

(** A value held in a data frame or in a table: a Python int, a Python
    float (NaN included), a string, or [None] / SQL NULL. *)
Inductive cell : Type :=
| Int (z : Z)
| Float (f : float)
| Str (s : string)
| Null.

(** The float nearest to an integer, ties to even, as Python converts
    an int; the integers of a frame are 64-bit ones and far below the
    largest float. *)
Definition float_of_Z (z : Z) : float :=
  SF2Prim (binary_normalize prec emax z 0 false).

Definition is_nan (f : float) : bool := negb (f =? f)%float.

Definition cell_eqb (a b : cell) : bool :=
  match a, b with
  | Int x, Int y => (x =? y)%Z
  | Float x, Float y => (x =? y)%float
  | Str x, Str y => String.eqb x y
  | Null, Null => true
  | _, _ => false
  end.

(** A data frame: column labels, and rows holding one cell per label. *)
Record frame : Type := mkFrame {
  columns : list string;
  rows : list (list cell)
}.

(** Position of the first column with this label. *)
Fixpoint col_index (label : string) (cols : list string) : option nat :=
  match cols with
  | [] => None
  | c :: cs =>
      if String.eqb c label then Some 0%nat
      else option_map S (col_index label cs)
  end.

(** [df[label]]: a missing label raises [KeyError]. *)
Definition loc (cols : list string) (label : string) : result nat :=
  match col_index label cols with
  | Some i => Ok i
  | None => Raise (KeyError label)
  end.

Definition get (i : nat) (row : list cell) : cell := nth i row Null.

Fixpoint set_nth {A : Type} (i : nat) (x : A) (l : list A) : list A :=
  match l, i with
  | [], _ => []
  | _ :: t, O => x :: t
  | h :: t, S j => h :: set_nth j x t
  end.

(** [df[label] = df[label].<f>]: the column is computed as a whole, so
    the first cell that [f] rejects raises before anything is
    assigned. *)
Definition transform_col (f : cell -> result cell) (i : nat)
    (rs : list (list cell)) : result (list (list cell)) :=
  vs <- mapM (fun r => f (get i r)) rs ;;
  Ok (map (fun rv => set_nth i (snd rv) (fst rv)) (combine rs vs)).

(** [df[label] = values]: overwrites the column when the label exists,
    appends it otherwise. *)
Definition assign_col (label : string) (vs : list cell) (df : frame) : frame :=
  match col_index label (columns df) with
  | Some i =>
      mkFrame (columns df)
              (map (fun rv => set_nth i (snd rv) (fst rv)) (combine (rows df) vs))
  | None =>
      mkFrame (columns df ++ [label])
              (map (fun rv => fst rv ++ [snd rv]) (combine (rows df) vs))
  end.

(** [df[mask]]: the rows at which [p] holds, in their order. *)
Definition select (p : list cell -> bool) (df : frame) : frame :=
  mkFrame (columns df) (filter p (rows df)).

(** ** Ingestion: [load_data] *)

(** [.replace({'\$': '', ',': '', ' ': ''}, regex=True)] on one string:
    every dollar sign, comma and space is removed. *)
Definition currency_char (c : ascii) : bool :=
  (Ascii.eqb c "$" || Ascii.eqb c "," || Ascii.eqb c " ")%char.

Fixpoint strip_currency (s : string) : string :=
  match s with
  | EmptyString => EmptyString
  | String c rest =>
      if currency_char c then strip_currency rest
      else String c (strip_currency rest)
  end.

Definition replace_currency (c : cell) : cell :=
  match c with
  | Str s => Str (strip_currency s)
  | other => other
  end.

(** A calendar date, and [strftime('%Y-%m-%d')]. *)
Record date : Type := mkDate { year : Z; month : Z; day : Z }.

Definition digits (z : Z) : string := NilZero.string_of_int (Z.to_int z).

Definition pad2 (z : Z) : string :=
  if (z <? 10)%Z then "0" ++ digits z else digits z.

Definition pad4 (z : Z) : string :=
  if (z <? 10)%Z then "000" ++ digits z
  else if (z <? 100)%Z then "00" ++ digits z
  else if (z <? 1000)%Z then "0" ++ digits z
  else digits z.

Definition strftime (d : date) : string :=
  pad4 (year d) ++ "-" ++ pad2 (month d) ++ "-" ++ pad2 (day d).

(** The sale-type rule of the lambda passed to [df.apply]. *)
Definition gt (c : cell) (k : Z) : result bool :=
  match c with
  | Int z => Ok (k <? z)%Z
  | Float f => Ok (float_of_Z k <? f)%float
  | Str _ => Raise TypeError
  | Null => Raise TypeError
  end.

Definition sale_type_rule (cols : list string) (row : list cell) : result cell :=
  ib <- loc cols "Boxes Shipped" ;;
  b <- gt (get ib row) 100 ;;
  if b then Ok (Str "Wholesale")
  else
    ia <- loc cols "Amount" ;;
    a <- gt (get ia row) 5000 ;;
    Ok (Str (if a then "Wholesale" else "Retail")).

(** [df.rename(columns={...})]. *)
Definition rename_label (l : string) : string :=
  if String.eqb l "Sales Person" then "sales_person"
  else if String.eqb l "Country" then "country"
  else if String.eqb l "Product" then "product"
  else if String.eqb l "Date" then "date"
  else if String.eqb l "Amount" then "amount"
  else if String.eqb l "Boxes Shipped" then "boxes_shipped"
  else l.

Definition rename (df : frame) : frame :=
  mkFrame (map rename_label (columns df)) (rows df).

(** ** The [sales] table *)

Definition lower (c : ascii) : ascii :=
  let n := nat_of_ascii c in
  if ((65 <=? n) && (n <=? 90))%nat then ascii_of_nat (n + 32) else c.

Fixpoint lowercase (s : string) : string :=
  match s with
  | EmptyString => EmptyString
  | String c rest => String (lower c) (lowercase rest)
  end.

(** sqlite takes the names of columns without regard to the case of
    the letters A to Z. *)
Definition same_name (a b : string) : bool :=
  String.eqb (lowercase a) (lowercase b).

(** Position of the column that sqlite finds under a name. *)
Fixpoint column_index (name : string) (cols : list string) : option nat :=
  match cols with
  | [] => None
  | c :: cs =>
      if same_name c name then Some 0%nat
      else option_map S (column_index name cs)
  end.

(** No two columns of a table may bear the same name. *)
Fixpoint distinct_names (cols : list string) : bool :=
  match cols with
  | [] => true
  | c :: cs =>
      match column_index c cs with
      | Some _ => false
      | None => distinct_names cs
      end
  end.

(** A table is its column names and its rows; [rowid_key] says whether
    the column [id] is the [INTEGER PRIMARY KEY AUTOINCREMENT] of
    [init_db], and [last_id] is the largest id given out so far. *)
Record table : Type := mkTable {
  rowid_key : bool;
  last_id : Z;
  content : frame
}.

(** The file [sales_data.db], as far as the [sales] table goes: the
    table may not exist yet. *)
Definition database : Type := option table.

Definition sales_columns : list string :=
  ["id"; "sales_person"; "country"; "product"; "date"; "amount";
   "boxes_shipped"; "sale_type"].

(** [CREATE TABLE IF NOT EXISTS sales (...)]. *)
Definition init_db (db : database) : table :=
  match db with
  | Some t => t
  | None => mkTable true 0 (mkFrame sales_columns [])
  end.

(** What sqlite stores for a cell that pandas hands over: NaN goes in
    as NULL. *)
Definition sql_value (c : cell) : cell :=
  match c with
  | Float f => if is_nan f then Null else Float f
  | other => other
  end.

(** [df.to_sql('sales', conn, if_exists='replace', index=False)]: the
    table is dropped and created again with the columns of [df];
    sqlite refuses to create a table with a column name twice. *)
Definition to_sql_replace (df : frame) : result table :=
  if distinct_names (columns df)
  then Ok (mkTable false 0 (mkFrame (columns df) (map (map sql_value) (rows df))))
  else Raise OperationalError.

(** [SELECT * FROM sales]. *)
Definition load_data_from_db (t : table) : frame := content t.

Section Ingestion.

(** [float(s)] and [strptime(s, '%d-%b-%y')] are library code. *)
Variable float_of_string : string -> option float.
Variable strptime : string -> option date.

(** [.astype(float)] on one cell. *)
Definition astype_float (c : cell) : result cell :=
  match c with
  | Int z => Ok (Float (float_of_Z z))
  | Float f => Ok (Float f)
  | Str s =>
      match float_of_string s with
      | Some f => Ok (Float f)
      | None => Raise ValueError
      end
  | Null => Ok (Float nan)
  end.

(** [pd.to_datetime(.., format='%d-%b-%y').dt.strftime('%Y-%m-%d')]
    on one cell; a missing value stays missing. *)
Definition to_iso_date (c : cell) : result cell :=
  match c with
  | Str s =>
      match strptime s with
      | Some d => Ok (Str (strftime d))
      | None => Raise ValueError
      end
  | Float f => if is_nan f then Ok (Float f) else Raise ValueError
  | Null => Ok Null
  | Int _ => Raise ValueError
  end.

(** Lines 86 to 95: the cleaning of the frame read from the CSV. *)
Definition clean (csv : frame) : result frame :=
  ia <- loc (columns csv) "Amount" ;;
  rs1 <- transform_col (fun c => astype_float (replace_currency c)) ia (rows csv) ;;
  idt <- loc (columns csv) "Date" ;;
  rs2 <- transform_col to_iso_date idt rs1 ;;
  st <- mapM (sale_type_rule (columns csv)) rs2 ;;
  Ok (rename (assign_col "sale_type" st (mkFrame (columns csv) rs2))).

(** [load_data]: the cleaned frame is written over the [sales] table
    and returned. *)
Definition load_data (csv : frame) : result (frame * table) :=
  df <- clean csv ;;
  t <- to_sql_replace df ;;
  Ok (df, t).

End Ingestion.

(** *** The parsers on the inputs of the sales file

    Two instances of the library functions, on the strings the sales
    file holds: plain decimal numerals and dates such as [04-Jan-22]. *)

Definition digit_value (c : ascii) : option Z :=
  let n := Z.of_nat (nat_of_ascii c) in
  if ((48 <=? n) && (n <=? 57))%Z then Some (n - 48)%Z else None.

(** The digits of [s] read as a number, with their count; [None] when
    [s] holds anything else. *)
Fixpoint read_digits (s : string) (acc : Z) (n : nat) : option (Z * nat) :=
  match s with
  | EmptyString => Some (acc, n)
  | String c rest =>
      match digit_value c with
      | Some d => read_digits rest (10 * acc + d)%Z (S n)
      | None => None
      end
  end.

Fixpoint split_at (sep : ascii) (s : string) : list string :=
  match s with
  | EmptyString => [EmptyString]
  | String c rest =>
      if Ascii.eqb c sep then EmptyString :: split_at sep rest
      else
        match split_at sep rest with
        | [] => [String c EmptyString]
        | w :: ws => String c w :: ws
        end
  end.

(** [float(s)] where [s] is digits with an optional fraction, 15
    digits at most: numerator and power of ten are then exact floats,
    and their quotient is the correctly rounded value. *)
Definition float_of_decimal (s : string) : option float :=
  let parse (whole frac : string) :=
    match read_digits (whole ++ frac)%string 0 0 with
    | Some (m, n) =>
        if ((0 <? n) && (n <=? 15))%nat
        then Some (float_of_Z m / float_of_Z (10 ^ Z.of_nat (String.length frac)))%float
        else None
    | None => None
    end in
  match split_at "." s with
  | [whole] => parse whole EmptyString
  | [whole; frac] => parse whole frac
  | _ => None
  end.

Definition month_names : list string :=
  ["jan"; "feb"; "mar"; "apr"; "may"; "jun";
   "jul"; "aug"; "sep"; "oct"; "nov"; "dec"].

Fixpoint month_number (name : string) (names : list string) (k : Z) : option Z :=
  match names with
  | [] => None
  | n :: ns => if String.eqb n name then Some k else month_number name ns (k + 1)%Z
  end.

Definition leap (y : Z) : bool :=
  ((y mod 4 =? 0) && (negb (y mod 100 =? 0) || (y mod 400 =? 0)))%Z.

Definition days_in_month (y m : Z) : Z :=
  if (m =? 2)%Z then (if leap y then 29 else 28)%Z
  else if ((m =? 4) || (m =? 6) || (m =? 9) || (m =? 11))%Z then 30%Z
  else 31%Z.

(** [strptime(s, '%d-%b-%y')]: a day of one or two digits, a month
    abbreviation in any case, a year of two digits, of which 69 to 99
    are the 1900s. *)
Definition strptime_dby (s : string) : option date :=
  match split_at "-" s with
  | [d; b; y] =>
      match read_digits d 0 0, month_number (lowercase b) month_names 1,
            read_digits y 0 0 with
      | Some (dd, nd), Some mm, Some (yy, 2%nat) =>
          let yyyy := (if yy <? 69 then 2000 + yy else 1900 + yy)%Z in
          if ((1 <=? nd) && (nd <=? 2))%nat
             && ((1 <=? dd) && (dd <=? days_in_month yyyy mm))%Z
          then Some (mkDate yyyy mm dd)
          else None
      | _, _, _ => None
      end
  | _ => None
  end.

(** ** The statements of the owner's forms *)

(** [WHERE id = ?] on one stored value: an integer or real column
    compares by value, a text column compares with the decimal numeral
    of the id, NULL never matches. *)
Definition sql_eq_id (c : cell) (id : Z) : bool :=
  match c with
  | Int z => (z =? id)%Z
  | Float f => (f =? float_of_Z id)%float
  | Str s => String.eqb s (digits id)
  | Null => false
  end.

Fixpoint lookup (label : string) (vs : list (string * cell)) : option cell :=
  match vs with
  | [] => None
  | (l, v) :: rest => if same_name l label then Some v else lookup label rest
  end.

Definition has_column (t : table) (label : string) : bool :=
  match column_index label (columns (content t)) with
  | Some _ => true
  | None => false
  end.

(** A statement that names a column the table does not have is
    rejected when it is prepared. *)
Definition prepare (t : table) (labels : list string) : result unit :=
  if forallb (has_column t) labels then Ok tt else Raise OperationalError.

(** One row under [SET l1 = ?, ...]: the named columns take the new
    values, the others keep theirs. *)
Fixpoint set_fields (cols : list string) (vs : list (string * cell))
    (row : list cell) : list cell :=
  match cols, row with
  | c :: cs, x :: xs =>
      match lookup c vs with
      | Some v => v :: set_fields cs vs xs
      | None => x :: set_fields cs vs xs
      end
  | _, _ => row
  end.

Definition matches (t : table) (id : Z) (row : list cell) : bool :=
  match column_index "id" (columns (content t)) with
  | Some i => sql_eq_id (get i row) id
  | None => false
  end.

(** [UPDATE sales SET ... WHERE id = ?]. *)
Definition exec_update (vs : list (string * cell)) (id : Z) (t : table)
  : result table :=
  _ <- prepare t (map fst vs ++ ["id"]) ;;
  let cols := columns (content t) in
  Ok (mkTable (rowid_key t) (last_id t)
        (mkFrame cols
           (map (fun row => if matches t id row then set_fields cols vs row else row)
                (rows (content t))))).

(** [DELETE FROM sales WHERE id = ?]. *)
Definition exec_delete (id : Z) (t : table) : result table :=
  _ <- prepare t ["id"] ;;
  Ok (mkTable (rowid_key t) (last_id t)
        (select (fun row => negb (matches t id row)) (content t))).

(** The row that an INSERT naming the columns of [vs] stores: a column
    left out is NULL, except the key of [init_db], which takes the
    next id. *)
Definition new_row (t : table) (vs : list (string * cell)) : list cell :=
  map (fun c =>
         match lookup c vs with
         | Some v => v
         | None =>
             if rowid_key t && same_name c "id" then Int (last_id t + 1) else Null
         end)
      (columns (content t)).

(** [INSERT INTO sales (l1, ...) VALUES (?, ...)]. *)
Definition exec_insert (vs : list (string * cell)) (t : table) : result table :=
  _ <- prepare t (map fst vs) ;;
  Ok (mkTable (rowid_key t)
        (if rowid_key t then last_id t + 1 else last_id t)%Z
        (mkFrame (columns (content t))
                 (rows (content t) ++ [new_row t vs]))).

(** The values of a form of [main]. *)
Record sale_form : Type := mkForm {
  sales_person : string;
  country : string;
  product : string;
  sale_date : date;
  amount : float;
  boxes_shipped : Z;
  sale_type : string
}.

Definition form_values (f : sale_form) : list (string * cell) :=
  [("sales_person", Str (sales_person f)); ("country", Str (country f));
   ("product", Str (product f)); ("date", Str (strftime (sale_date f)));
   ("amount", Float (amount f)); ("boxes_shipped", Int (boxes_shipped f));
   ("sale_type", Str (sale_type f))].

(** What a form handler leaves behind when no exception stops it: the
    table, the frame put in [st.session_state.data], the message. *)
Definition outcome : Type := (table * frame * string)%type.

Definition reloaded (t : table) (message : string) : outcome :=
  (t, load_data_from_db t, message).

(** Lines 334 to 344, the form "Add New Sale". *)
Definition add_sale (f : sale_form) (t : table) : result outcome :=
  t' <- exec_insert (form_values f) t ;;
  Ok (reloaded t' "Sale added").

(** Lines 367 to 379, the button "Update Sale". *)
Definition update_sale (f : sale_form) (edit_id : Z) (t : table) : result outcome :=
  t' <- exec_update (form_values f) edit_id t ;;
  Ok (reloaded t' "Sale updated").

(** Lines 381 to 388, the button "Delete Sale". *)
Definition delete_sale (edit_id : Z) (t : table) : result outcome :=
  t' <- exec_delete edit_id t ;;
  Ok (reloaded t' "Sale deleted").

(** Lines 277 to 284, the button "Update Sale Type". *)
Definition override_sale_type (new_sale_type : string) (record_id : Z) (t : table)
  : result outcome :=
  t' <- exec_update [("sale_type", Str new_sale_type)] record_id t ;;
  Ok (reloaded t' "Sale type updated").

(** ** The role restriction of [main] *)

(** Lines 164 to 166: [if role == 'Sales Rep': df = df[df['sales_person']
    == username]].  The comparison of a cell that is not a string with
    the username is [False]. *)
Definition restrict_to_role (role username : string) (df : frame) : result frame :=
  if String.eqb role "Sales Rep" then
    i <- loc (columns df) "sales_person" ;;
    Ok (select (fun row => cell_eqb (get i row) (Str username)) df)
  else Ok df.

(** ** The alerts of [main] *)

(** [df[mask]] for a mask that was computed beforehand. *)
Definition select_mask (mask : list bool) (df : frame) : frame :=
  mkFrame (columns df) (map fst (filter snd (combine (rows df) mask))).

(** Line 397: [filtered_df[filtered_df['amount'] > 15000]]. *)
Definition anomalies (filtered_df : frame) : result frame :=
  i <- loc (columns filtered_df) "amount" ;;
  mask <- mapM (fun row => gt (get i row) 15000) (rows filtered_df) ;;
  Ok (select_mask mask filtered_df).

(** [Series.ffill]: a NaN takes the last value before it that is not
    one. *)
Fixpoint ffill_from (last : float) (s : list float) : list float :=
  match s with
  | [] => []
  | x :: xs =>
      if is_nan x then last :: ffill_from last xs else x :: ffill_from x xs
  end.

Definition ffill (s : list float) : list float := ffill_from nan s.

(** [Series.shift(1)]: every value moves one place down and the first
    place holds NaN. *)
Definition shift (s : list float) : list float := nan :: removelast s.

(** [Series.pct_change()]: [data / data.shift(1) - 1] on the filled
    series. *)
Definition pct_change (s : list float) : list float :=
  let data := ffill s in
  map (fun cp => (fst cp / snd cp - 1)%float) (combine data (shift data)).

(** Lines 405 and 406, on the monthly sums of the metric: the entries
    of the drops, each with its position in the monthly series. *)
Definition monthly_changes (monthly : list float) : list float :=
  map (fun x => (x * 100)%float) (pct_change monthly).

Definition enumerate {A : Type} (l : list A) : list (nat * A) :=
  combine (seq 0 (List.length l)) l.

Definition drops (monthly : list float) : list (nat * float) :=
  filter (fun iv => (snd iv <? -50)%float) (enumerate (monthly_changes monthly)).

(** ** Predicates and sample data of the statements *)

(** The amount of a row is a float above 15000. *)
Definition above_15000 (i : nat) (row : list cell) : bool :=
  match get i row with
  | Float f => (15000 <? f)%float
  | _ => false
  end.

(** Rows and frames in the canonical layout. *)
Definition one_sale (who : string) (amt : float) : list cell :=
  [Str who; Str "UK"; Str "Eclairs"; Str "2022-01-04"; Float amt; Int 12; Str "Retail"].

Definition canonical_columns : list string :=
  ["sales_person"; "country"; "product"; "date"; "amount"; "boxes_shipped";
   "sale_type"].

Definition two_reps : frame :=
  mkFrame canonical_columns [one_sale "Alice" 100; one_sale "alice" 200].

(** The float that Python reads from [15000.01]. *)
Definition just_above_15000 : float := 0x1.d4c0147ae147bp+13.

Definition at_the_threshold : frame :=
  mkFrame canonical_columns
          [one_sale "Alice" just_above_15000; one_sale "Bob" 15000].

(** [c > k] taken as a truth value. *)
Definition exceeds (c : cell) (k : Z) : bool :=
  match gt c k with
  | Ok b => b
  | Raise _ => false
  end.

(** A frame is rectangular: every row has one cell per column. *)
Definition rectangular (df : frame) : Prop :=
  forall row, In row (rows df) -> List.length row = List.length (columns df).

(** A file in the layout of the sales CSV. *)
Definition raw_columns : list string :=
  ["Sales Person"; "Country"; "Product"; "Date"; "Amount"; "Boxes Shipped"].

Definition sample_csv : frame :=
  mkFrame raw_columns
    [[Str "Jehu Rudeforth"; Str "UK"; Str "Mint Chip Choco"; Str "04-Jan-22";
      Str "$5,320 "; Int 180];
     [Str "Van Tuxwell"; Str "India"; Str "85% Dark Bars"; Str "01-Aug-22";
      Str "$7,896 "; Int 94];
     [Str "Gigi Bohling"; Str "India"; Str "Peanut Butter Cubes"; Str "07-Jul-22";
      Str "$4,501 "; Int 91]].

Definition sample_form : sale_form :=
  mkForm "Alice" "UK" "Eclairs" (mkDate 2022 1 4) 120 3 "Retail".

(** The table of [init_db] after one submission of the form "Add New
    Sale". *)
Definition one_row_table : table :=
  mkTable true 1
    (mkFrame sales_columns
       [[Int 1; Str "Alice"; Str "UK"; Str "Eclairs"; Str "2022-01-04";
         Float 120; Int 3; Str "Retail"]]).

(** The sales file with a column of record numbers, and what ingestion
    makes of it. *)
Definition numbered_csv : frame :=
  mkFrame ("id" :: raw_columns)
    [[Int 1; Str "Jehu Rudeforth"; Str "UK"; Str "Mint Chip Choco"; Str "04-Jan-22";
      Str "$5,320 "; Int 180];
     [Int 2; Str "Van Tuxwell"; Str "India"; Str "85% Dark Bars"; Str "01-Aug-22";
      Str "$7,896 "; Int 94]].

Definition numbered_clean : frame :=
  mkFrame sales_columns
    [[Int 1; Str "Jehu Rudeforth"; Str "UK"; Str "Mint Chip Choco"; Str "2022-01-04";
      Float 5320; Int 180; Str "Wholesale"];
     [Int 2; Str "Van Tuxwell"; Str "India"; Str "85% Dark Bars"; Str "2022-08-01";
      Float 7896; Int 94; Str "Wholesale"]].

(** No stored row has this id. *)
Definition absent (id : Z) (t : table) : Prop :=
  forall row, In row (rows (content t)) -> matches t id row = false.

(** The table has the columns that the statement of "Update Sale"
    names. *)
Definition has_sales_columns (t : table) : bool :=
  forallb (has_column t) sales_columns.

(** What ingestion makes of [sample_csv]. *)
Definition sample_clean : frame :=
  mkFrame canonical_columns
    [[Str "Jehu Rudeforth"; Str "UK"; Str "Mint Chip Choco"; Str "2022-01-04";
      Float 5320; Int 180; Str "Wholesale"];
     [Str "Van Tuxwell"; Str "India"; Str "85% Dark Bars"; Str "2022-08-01";
      Float 7896; Int 94; Str "Wholesale"];
     [Str "Gigi Bohling"; Str "India"; Str "Peanut Butter Cubes"; Str "2022-07-07";
      Float 4501; Int 91; Str "Retail"]].

(** One row of a CSV that holds the two columns of the rule. *)
Definition boxes_and_amount (boxes : Z) (amt : float) : list cell :=
  [Int boxes; Float amt].

(** The largest float below one half of 3. *)
Definition just_below_half_of_3 : float := 0x1.7ffffffffffffp+0.

(** No value of the series is NaN. *)
Definition no_nan (s : list float) : Prop :=
  Forall (fun x => is_nan x = false) s.

(** No value of the series is below zero (which leaves no room for a
    NaN either). *)
Definition nonnegative (s : list float) : Prop :=
  Forall (fun x => (0 <=? x)%float = true) s.

(** The positions of the flagged months. *)
Definition flagged (monthly : list float) : list nat := map fst (drops monthly).

(** ** Product categories *)

(** [sub in s] on Python strings. *)
Fixpoint contains (sub s : string) : bool :=
  String.prefix sub s
  || match s with
     | EmptyString => false
     | String _ rest => contains sub rest
     end.

(** Lines 301 to 309, [categorize_product]. *)
Definition categorize_product (product : string) : string :=
  if contains "Dark" product then "Dark Chocolate"
  else if contains "Milk" product then "Milk Chocolate"
  else if contains "Syrup" product then "Syrups"
  else "Other".

(** [Series.apply(categorize_product)] on one cell: [in] needs a
    string on its right. *)
Definition category_of (c : cell) : result cell :=
  match c with
  | Str product => Ok (Str (categorize_product product))
  | _ => Raise TypeError
  end.

(** Line 311: [filtered_df['Category'] =
    filtered_df['product'].apply(categorize_product)]. *)
Definition add_category (filtered_df : frame) : result frame :=
  i <- loc (columns filtered_df) "product" ;;
  cats <- mapM (fun row => category_of (get i row)) (rows filtered_df) ;;
  Ok (assign_col "Category" cats filtered_df).

(** [sub] occurs somewhere in [s]. *)
Definition occurs (sub s : string) : Prop :=
  exists before after, s = (before ++ sub ++ after)%string.

(** ** Ingestion seen from one row *)

Section IngestionByRow.

Variable float_of_string : string -> option float.
Variable strptime : string -> option date.

(** What lines 86 to 92 do to the row [r] of a frame whose amount and
    date stand at the positions [ia] and [idt]. *)
Definition clean_row (cols : list string) (ia idt : nat) (r : list cell)
  : result (list cell) :=
  a <- astype_float float_of_string (replace_currency (get ia r)) ;;
  d <- to_iso_date strptime (get idt (set_nth ia a r)) ;;
  v <- sale_type_rule cols (set_nth idt d (set_nth ia a r)) ;;
  Ok (match col_index "sale_type" cols with
      | Some j => set_nth j v (set_nth idt d (set_nth ia a r))
      | None => set_nth idt d (set_nth ia a r) ++ [v]
      end).

End IngestionByRow.

(** ** The owner's buttons, one run of the script after the other *)





(** The table is the one of [init_db]: its columns, and in every row
    an id that was given out, no id twice. *)
Definition keyed (t : table) : Prop :=
  rowid_key t = true
  /\ (0 <= last_id t)%Z
  /\ columns (content t) = sales_columns
  /\ (forall row, In row (rows (content t)) ->
        List.length row = 8%nat
        /\ exists z, get 0 row = Int z /\ (0 < z <= last_id t)%Z)
  /\ NoDup (map (get 0) (rows (content t))).

(** The cells that a form writes, in the order of the columns. *)
Definition form_cells (f : sale_form) : list cell := map snd (form_values f).

(** ** The [users] table *)

(** One row of [users]: the name is the primary key. *)
Record user : Type := mkUser {
  user_name : string;
  password_hash : string;
  user_role : string
}.

(** [SELECT ... FROM users WHERE username = ?], [fetchone]. *)
Fixpoint find_user (name : string) (users : list user) : option user :=
  match users with
  | [] => None
  | u :: rest => if String.eqb (user_name u) name then Some u else find_user name rest
  end.

Section Users.

(** [bleach.clean], and the two halves of [passlib]'s
    [pbkdf2_sha256]: hashing draws a salt, verification reads it back
    from the hash. *)
Variable bleach_clean : string -> string.
Variable pbkdf2_hash : string -> string -> string.
Variable pbkdf2_verify : string -> string -> bool.

(** Lines 59 to 66. *)
Definition authenticate_user (username password : string) (users : list user)
  : bool * option string :=
  match find_user (bleach_clean username) users with
  | Some u =>
      if pbkdf2_verify password (password_hash u)
      then (true, Some (user_role u))
      else (false, None)
  | None => (false, None)
  end.

(** Lines 68 to 78: the INSERT fails with [sqlite3.IntegrityError] when
    the name is taken, and [add_user] then answers [False]. *)
Definition add_user (salt username password role : string) (users : list user)
  : bool * list user :=
  let name := bleach_clean username in
  match find_user name users with
  | Some _ => (false, users)
  | None => (true, users ++ [mkUser name (pbkdf2_hash salt password) role])
  end.

End Users.

(** ** The months of the forecast *)

(** [d + pd.offsets.MonthBegin(1)]: the first day of the month after
    the one of [d]. *)
Definition month_begin_after (d : date) : date :=
  if (month d =? 12)%Z then mkDate (year d + 1) 1 1
  else mkDate (year d) (month d + 1) 1.

(** [pd.date_range(start=.., periods=.., freq='MS')] from a first day
    of a month. *)
Fixpoint date_range_MS (start : date) (periods : nat) : list date :=
  match periods with
  | O => []
  | S n => start :: date_range_MS (month_begin_after start) n
  end.

(** Lines 116 and 117, [forecast_dates], from the last month of the
    data. *)
Definition forecast_dates (last_month : date) (periods : nat) : list date :=
  date_range_MS (month_begin_after last_month) periods.

(** The string of a cell that holds one. *)
Definition text (c : cell) : string :=
  match c with
  | Str s => s
  | _ => EmptyString
  end.

(** Stand-ins for the libraries: a cleaning that finds nothing to
    clean, and a hash that is checked by comparison. *)
Definition no_markup (s : string) : string := s.

Definition plain_hash (salt password : string) : string := password.

Definition plain_verify (password hash : string) : bool := String.eqb password hash.

(** A CSV whose second amount is not a number. *)
Definition broken_csv : frame :=
  mkFrame raw_columns
    [[Str "Jehu Rudeforth"; Str "UK"; Str "Mint Chip Choco"; Str "04-Jan-22";
      Str "$5,320 "; Int 180];
     [Str "Van Tuxwell"; Str "India"; Str "85% Dark Bars"; Str "01-Aug-22";
      Str "n/a"; Int 94]].


(* ================================================================== *)
(** * Theorems *)
(* ================================================================== *)

(** ** Lists and results *)

Lemma mapM_pointwise {A B : Type} (f : A -> result B) (g : A -> B) (l : list A) :
  (forall x, In x l -> f x = Ok (g x)) -> mapM f l = Ok (map g l).
Proof.
  induction l as [|x xs IH]; intros H; simpl; [reflexivity|].
  rewrite (H x (or_introl eq_refl)); simpl.
  rewrite IH by (intros y Hy; apply H; now right).
  reflexivity.
Qed.

Lemma mask_is_filter {A : Type} (p : A -> bool) (l : list A) :
  map fst (filter snd (combine l (map p l))) = filter p l.
Proof.
  induction l as [|x xs IH]; simpl; [reflexivity|].
  destruct (p x); simpl; now rewrite IH.
Qed.

Lemma cell_eqb_Str (c : cell) (s : string) :
  cell_eqb c (Str s) = true <-> c = Str s.
Proof.
  destruct c as [z|f|t|]; simpl; split; intros H; try discriminate.
  - apply String.eqb_eq in H; now subst.
  - inversion H; apply String.eqb_refl.
Qed.

(** ** The role restriction *)

(** C1, as stated, fails: a role that is neither of the two known ones
    is not cut down to nothing, it sees every row. *)
Lemma unknown_role_sees_every_row :
  restrict_to_role "Auditor" "Alice" two_reps = Ok two_reps
  /\ rows two_reps <> [].
Proof. split; [reflexivity | discriminate]. Qed.

(** C1, amended: the restriction leaves the frame as it is for every
    role but ['Sales Rep'] (the owner, and any other value of the role
    as well); for ['Sales Rep'] it keeps, in their order, exactly the
    rows whose [sales_person] is the username, character for
    character, which may be none. *)
Theorem restrict_to_role_spec (role username : string) (df : frame) :
  (role <> "Sales Rep" -> restrict_to_role role username df = Ok df)
  /\ (forall i, role = "Sales Rep" ->
        col_index "sales_person" (columns df) = Some i ->
        exists out,
          restrict_to_role role username df = Ok out
          /\ columns out = columns df
          /\ rows out
             = filter (fun row => cell_eqb (get i row) (Str username)) (rows df)
          /\ forall row, In row (rows out)
                         <-> In row (rows df) /\ get i row = Str username).
Proof.
  unfold restrict_to_role, loc; split.
  - intros Hrole.
    destruct (String.eqb role "Sales Rep") eqn:E; [|reflexivity].
    apply String.eqb_eq in E; contradiction.
  - intros i -> Hi; rewrite String.eqb_refl, Hi; simpl.
    eexists; split; [reflexivity|]; simpl.
    split; [reflexivity|]; split; [reflexivity|].
    intros row; rewrite filter_In, cell_eqb_Str; tauto.
Qed.

Lemma restrict_to_role_spec_witness :
  restrict_to_role "Owner" "Alice" two_reps = Ok two_reps
  /\ exists out,
       restrict_to_role "Sales Rep" "Alice" two_reps = Ok out
       /\ columns out = columns two_reps
       /\ rows out
          = filter (fun row => cell_eqb (get 0 row) (Str "Alice")) (rows two_reps)
       /\ forall row, In row (rows out)
                      <-> In row (rows two_reps) /\ get 0 row = Str "Alice".
Proof.
  split.
  - apply (proj1 (restrict_to_role_spec "Owner" "Alice" two_reps)); discriminate.
  - apply (proj2 (restrict_to_role_spec "Sales Rep" "Alice" two_reps) 0%nat);
      reflexivity.
Defined.

Example sales_rep_sees_own_rows :
  restrict_to_role "Sales Rep" "Alice" two_reps
  = Ok (mkFrame canonical_columns [one_sale "Alice" 100]).
Proof. reflexivity. Qed.

Example sales_rep_without_sales :
  restrict_to_role "Sales Rep" "Bob" two_reps = Ok (mkFrame canonical_columns []).
Proof. reflexivity. Qed.

(** ** High-value sales *)

(** C6: on a frame whose amounts are floats, the alert returns, in
    their order, exactly the rows whose amount is greater than 15000,
    and an amount of 15000 itself is not among them; the result is a
    function of the frame alone. *)
Theorem anomalies_spec (df : frame) (i : nat) :
  col_index "amount" (columns df) = Some i ->
  (forall row, In row (rows df) -> exists f, get i row = Float f) ->
  exists out,
    anomalies df = Ok out
    /\ columns out = columns df
    /\ rows out = filter (above_15000 i) (rows df)
    /\ (forall row, In row (rows out)
                    <-> In row (rows df)
                        /\ exists f, get i row = Float f /\ (15000 <? f)%float = true)
    /\ (forall row, get i row = Float 15000 -> ~ In row (rows out)).
Proof.
  intros Hi Hfloat.
  assert (Hmask : mapM (fun row => gt (get i row) 15000) (rows df)
                  = Ok (map (above_15000 i) (rows df))).
  { apply mapM_pointwise; intros row Hrow.
    destruct (Hfloat row Hrow) as [f Hf].
    unfold above_15000; rewrite Hf; reflexivity. }
  assert (Hmem : forall row, In row (filter (above_15000 i) (rows df))
                 <-> In row (rows df)
                     /\ exists f, get i row = Float f /\ (15000 <? f)%float = true).
  { intros row; rewrite filter_In; unfold above_15000; split.
    - intros [Hin Hgt]; split; [assumption|].
      destruct (get i row) as [z|f|t|]; try discriminate; now exists f.
    - intros [Hin [f [Hf Hgt]]]; split; [assumption|]; now rewrite Hf. }
  exists (mkFrame (columns df) (filter (above_15000 i) (rows df))).
  unfold anomalies, loc; rewrite Hi; simpl; rewrite Hmask; simpl.
  unfold select_mask; rewrite mask_is_filter.
  split; [reflexivity|]; split; [reflexivity|]; split; [reflexivity|].
  split; [exact Hmem|].
  intros row Hrow Hin; simpl in Hin; apply Hmem in Hin.
  destruct Hin as [_ [f [Hf Hgt]]].
  rewrite Hrow in Hf; inversion Hf; subst f.
  vm_compute in Hgt; discriminate.
Qed.

Lemma anomalies_spec_witness :
  exists out,
    anomalies at_the_threshold = Ok out
    /\ columns out = columns at_the_threshold
    /\ rows out = filter (above_15000 4) (rows at_the_threshold)
    /\ (forall row, In row (rows out)
                    <-> In row (rows at_the_threshold)
                        /\ exists f, get 4 row = Float f /\ (15000 <? f)%float = true)
    /\ (forall row, get 4 row = Float 15000 -> ~ In row (rows out)).
Proof.
  apply (anomalies_spec at_the_threshold 4).
  - reflexivity.
  - intros row [<-|[<-|[]]]; eexists; reflexivity.
Defined.

Example strictly_above_15000 :
  anomalies at_the_threshold
  = Ok (mkFrame canonical_columns [one_sale "Alice" just_above_15000]).
Proof. reflexivity. Qed.

(** ** Column labels *)

Lemma col_index_nth (label : string) (cols : list string) (i : nat) :
  col_index label cols = Some i -> nth_error cols i = Some label.
Proof.
  revert i; induction cols as [|c cs IH]; intros i H; simpl in H; [discriminate|].
  destruct (String.eqb c label) eqn:E.
  - inversion H; subst; simpl; apply String.eqb_eq in E; now subst.
  - destruct (col_index label cs) as [k|]; [|discriminate].
    inversion H; subst; simpl; now apply IH.
Qed.

Lemma col_index_lt (label : string) (cols : list string) (i : nat) :
  col_index label cols = Some i -> (i < List.length cols)%nat.
Proof.
  intros H; apply col_index_nth in H.
  apply nth_error_Some; congruence.
Qed.

Lemma col_index_None (label : string) (cols : list string) :
  col_index label cols = None <-> ~ In label cols.
Proof.
  induction cols as [|c cs IH]; simpl; [tauto|].
  destruct (String.eqb c label) eqn:E.
  - apply String.eqb_eq in E; split; [discriminate | intros H; exfalso; auto].
  - apply String.eqb_neq in E.
    destruct (col_index label cs); simpl; split; try discriminate.
    + intros H; exfalso; apply H; right.
      destruct (in_dec string_dec label cs) as [Hin|Hn]; [assumption|].
      apply IH in Hn; discriminate.
    + intros _ [H|H]; [contradiction|]; now apply IH in H.
    + reflexivity.
Qed.

Lemma col_index_app_l (label : string) (cols more : list string) (i : nat) :
  col_index label cols = Some i -> col_index label (cols ++ more) = Some i.
Proof.
  revert i; induction cols as [|c cs IH]; intros i H; simpl in *; [discriminate|].
  destruct (String.eqb c label); [assumption|].
  destruct (col_index label cs) as [k|]; [|discriminate].
  now rewrite (IH k eq_refl).
Qed.

Lemma col_index_app_new (label : string) (cols : list string) :
  col_index label cols = None ->
  col_index label (cols ++ [label]) = Some (List.length cols).
Proof.
  induction cols as [|c cs IH]; intros H; simpl in *.
  - now rewrite String.eqb_refl.
  - destruct (String.eqb c label); [discriminate|].
    destruct (col_index label cs); [discriminate|].
    now rewrite IH.
Qed.

(** A label that the renaming neither produces nor changes is found
    where it was. *)
Lemma col_index_rename (label : string) (cols : list string) :
  (forall c, rename_label c = label <-> c = label) ->
  col_index label (map rename_label cols) = col_index label cols.
Proof.
  intros Hfix; induction cols as [|c cs IH]; simpl; [reflexivity|].
  rewrite IH.
  destruct (String.eqb c label) eqn:E.
  - apply String.eqb_eq in E.
    apply (proj2 (Hfix c)) in E; rewrite E, String.eqb_refl; reflexivity.
  - destruct (String.eqb (rename_label c) label) eqn:E'; [|reflexivity].
    apply String.eqb_eq in E'; apply (proj1 (Hfix c)) in E'.
    rewrite E', String.eqb_refl in E; discriminate.
Qed.

Lemma rename_label_cases (c : string) :
  rename_label c = c
  \/ In (rename_label c)
        ["sales_person"; "country"; "product"; "date"; "amount"; "boxes_shipped"].
Proof.
  unfold rename_label.
  repeat match goal with
         | |- context [if ?b then _ else _] => destruct b
         end; simpl; tauto.
Qed.

Lemma rename_keeps_sale_type (c : string) :
  rename_label c = "sale_type" <-> c = "sale_type".
Proof.
  split; [|intros ->; reflexivity].
  intros H; destruct (rename_label_cases c) as [E|E]; [congruence|].
  rewrite H in E; simpl in E.
  repeat (destruct E as [E|E]; [discriminate|]); contradiction.
Qed.

Lemma rename_drops_Amount (cols : list string) :
  col_index "Amount" (map rename_label cols) = None.
Proof.
  apply col_index_None; intros H; apply in_map_iff in H.
  destruct H as [c [H _]].
  destruct (rename_label_cases c) as [E|E].
  - rewrite E in H; subst c; discriminate E.
  - rewrite H in E; simpl in E.
    repeat (destruct E as [E|E]; [discriminate|]); contradiction.
Qed.

(** ** Statements on the [sales] table *)


Lemma prepare_update_sale (f : sale_form) (t : table) :
  forallb (has_column t) (map fst (form_values f) ++ ["id"]) = has_sales_columns t.
Proof.
  unfold has_sales_columns, sales_columns; simpl.
  destruct (has_column t "id"), (has_column t "sales_person"),
    (has_column t "country"), (has_column t "product"), (has_column t "date"),
    (has_column t "amount"), (has_column t "boxes_shipped"),
    (has_column t "sale_type"); reflexivity.
Qed.

Lemma map_unmatched {A : Type} (p : A -> bool) (g : A -> A) (l : list A) :
  (forall x, In x l -> p x = false) ->
  map (fun x => if p x then g x else x) l = l.
Proof.
  induction l as [|x xs IH]; intros H; simpl; [reflexivity|].
  rewrite (H x (or_introl eq_refl)), IH; [reflexivity|].
  intros y Hy; apply H; now right.
Qed.

Lemma exec_update_absent (vs : list (string * cell)) (id : Z) (t t' : table) :
  absent id t -> exec_update vs id t = Ok t' -> t' = t.
Proof.
  intros Habs H; unfold exec_update in H.
  destruct (prepare t (map fst vs ++ ["id"])); simpl in H; [|discriminate].
  inversion H; subst t'; clear H.
  rewrite map_unmatched by exact Habs.
  destruct t as [k n [cols rs]]; reflexivity.
Qed.

(** C2, as stated, fails: on the table that ingestion leaves for a file
    with a column of record numbers, the update of an id that no row
    has is not an error: it goes through and reports success. *)
Lemma update_of_absent_id_succeeds :
  load_data float_of_decimal strptime_dby numbered_csv
  = Ok (numbered_clean, mkTable false 0 numbered_clean)
  /\ absent 7 (mkTable false 0 numbered_clean)
  /\ update_sale sample_form 7 (mkTable false 0 numbered_clean)
     = Ok (reloaded (mkTable false 0 numbered_clean) "Sale updated").
Proof.
  split; [reflexivity|]; split; [|reflexivity].
  intros row [<-|[<-|[]]]; reflexivity.
Qed.

(** C2, amended: the code never looks at the number of rows that an
    update has matched and raises no error of its own.  An update that
    targets an id no row has, once sqlite has accepted the statement,
    completes, reports "Sale updated" and leaves the table exactly as
    it was. *)
Theorem update_sale_absent_id (f : sale_form) (id : Z) (t : table) :
  absent id t ->
  (has_sales_columns t = true ->
     update_sale f id t = Ok (reloaded t "Sale updated"))
  /\ (forall o, update_sale f id t = Ok o -> o = reloaded t "Sale updated").
Proof.
  intros Habs.
  assert (Hkeep : forall o, update_sale f id t = Ok o ->
                            o = reloaded t "Sale updated").
  { intros o H; unfold update_sale in H.
    destruct (exec_update (form_values f) id t) as [t'|e] eqn:E;
      simpl in H; [|discriminate].
    inversion H; subst o.
    now rewrite (exec_update_absent (form_values f) id t t' Habs E). }
  split; [|exact Hkeep]; intros Hcols.
  destruct (update_sale f id t) as [o|e] eqn:E.
  - now rewrite (Hkeep o eq_refl).
  - unfold update_sale, exec_update, prepare in E.
    rewrite prepare_update_sale, Hcols in E; discriminate.
Qed.

Lemma update_sale_absent_id_witness :
  (has_sales_columns (mkTable false 0 numbered_clean) = true ->
     update_sale sample_form 7 (mkTable false 0 numbered_clean)
     = Ok (reloaded (mkTable false 0 numbered_clean) "Sale updated"))
  /\ (forall o, update_sale sample_form 7 (mkTable false 0 numbered_clean) = Ok o ->
                o = reloaded (mkTable false 0 numbered_clean) "Sale updated").
Proof.
  apply (update_sale_absent_id sample_form 7 (mkTable false 0 numbered_clean)).
  intros row [<-|[<-|[]]]; reflexivity.
Defined.

(** ** Rows *)

Lemma set_nth_length {A : Type} (i : nat) (x : A) (l : list A) :
  List.length (set_nth i x l) = List.length l.
Proof.
  revert i; induction l as [|h t IH]; intros [|i]; simpl; auto.
Qed.

Lemma get_set_nth_same (i : nat) (v : cell) (row : list cell) :
  (i < List.length row)%nat -> get i (set_nth i v row) = v.
Proof.
  unfold get; revert i; induction row as [|h t IH]; intros [|i] H; simpl in *;
    try lia; [reflexivity | apply IH; lia].
Qed.

Lemma get_set_nth_other (i j : nat) (v : cell) (row : list cell) :
  i <> j -> get i (set_nth j v row) = get i row.
Proof.
  unfold get; revert i j; induction row as [|h t IH]; intros [|i] [|j] H;
    simpl; try reflexivity; try contradiction.
  apply IH; congruence.
Qed.

Lemma get_app_old (i : nat) (row more : list cell) :
  (i < List.length row)%nat -> get i (row ++ more) = get i row.
Proof. intros H; unfold get; now apply app_nth1. Qed.

Lemma get_app_new (v : cell) (row : list cell) :
  get (List.length row) (row ++ [v]) = v.
Proof.
  unfold get; rewrite app_nth2 by lia.
  now rewrite Nat.sub_diag.
Qed.

Lemma mapM_In_combine {A B : Type} (f : A -> result B) (l : list A)
    (out : list B) (x : A) (y : B) :
  mapM f l = Ok out -> In (x, y) (combine l out) -> f x = Ok y.
Proof.
  revert out; induction l as [|a l IH]; intros out H Hin; simpl in H.
  - inversion H; subst; contradiction.
  - destruct (f a) as [b|e] eqn:Ea; simpl in H; [|discriminate].
    destruct (mapM f l) as [bs|e]; simpl in H; [|discriminate].
    inversion H; subst out; simpl in Hin.
    destruct Hin as [Heq|Hin]; [inversion Heq; now subst | now apply (IH bs)].
Qed.

Lemma transform_col_rows (f : cell -> result cell) (i : nat)
    (rs rs' : list (list cell)) (row' : list cell) :
  transform_col f i rs = Ok rs' -> In row' rs' ->
  exists row v, In row rs /\ f (get i row) = Ok v /\ row' = set_nth i v row.
Proof.
  unfold transform_col; intros H Hin.
  destruct (mapM (fun r => f (get i r)) rs) as [vs|e] eqn:E; simpl in H;
    [|discriminate].
  inversion H; subst rs'; apply in_map_iff in Hin.
  destruct Hin as [[row v] [Hrow Hin]]; simpl in Hrow.
  exists row, v; split; [now apply in_combine_l in Hin|].
  split; [|now symmetry].
  exact (mapM_In_combine _ _ _ _ _ E Hin).
Qed.

Lemma transform_col_length (f : cell -> result cell) (i n : nat)
    (rs rs' : list (list cell)) :
  transform_col f i rs = Ok rs' ->
  (forall row, In row rs -> List.length row = n) ->
  forall row, In row rs' -> List.length row = n.
Proof.
  intros H Hn row' Hin.
  destruct (transform_col_rows f i rs rs' row' H Hin) as (row & v & Hrow & _ & ->).
  rewrite set_nth_length; now apply Hn.
Qed.

Lemma sale_type_rule_value (cols : list string) (row : list cell) (v : cell)
    (ib ia : nat) :
  col_index "Boxes Shipped" cols = Some ib ->
  col_index "Amount" cols = Some ia ->
  sale_type_rule cols row = Ok v ->
  v = Str (if exceeds (get ib row) 100 || exceeds (get ia row) 5000
           then "Wholesale" else "Retail").
Proof.
  intros Hb Ha; unfold sale_type_rule, loc, exceeds; rewrite Hb, Ha; simpl.
  destruct (gt (get ib row) 100) as [[|]|e]; simpl; try discriminate.
  - intros H; now inversion H.
  - destruct (gt (get ia row) 5000) as [a|e]; simpl; [|discriminate].
    intros H; now inversion H.
Qed.

(** ** Ingestion *)

Lemma assign_col_columns (label : string) (vs : list cell) (df : frame) :
  columns (assign_col label vs df) = columns df
  \/ columns (assign_col label vs df) = columns df ++ [label].
Proof.
  unfold assign_col; destruct (col_index label (columns df)); simpl; auto.
Qed.




Section IngestionFacts.

Variable float_of_string : string -> option float.
Variable strptime : string -> option date.

Let cleaned := clean float_of_string strptime.
Let loaded := load_data float_of_string strptime.

(** The steps of a cleaning that went through. *)
Lemma clean_steps (csv df : frame) :
  cleaned csv = Ok df ->
  exists ia idt rs1 rs2 st,
    col_index "Amount" (columns csv) = Some ia
    /\ col_index "Date" (columns csv) = Some idt
    /\ transform_col (fun c => astype_float float_of_string (replace_currency c))
                     ia (rows csv) = Ok rs1
    /\ transform_col (to_iso_date strptime) idt rs1 = Ok rs2
    /\ mapM (sale_type_rule (columns csv)) rs2 = Ok st
    /\ df = rename (assign_col "sale_type" st (mkFrame (columns csv) rs2)).
Proof.
  unfold cleaned, clean, loc; intros H.
  destruct (col_index "Amount" (columns csv)) as [ia|]; simpl in H; [|discriminate].
  destruct (transform_col _ ia (rows csv)) as [rs1|] eqn:E1; simpl in H;
    [|discriminate].
  destruct (col_index "Date" (columns csv)) as [idt|]; simpl in H; [|discriminate].
  destruct (transform_col _ idt rs1) as [rs2|] eqn:E2; simpl in H; [|discriminate].
  destruct (mapM _ rs2) as [st|] eqn:E3; simpl in H; [|discriminate].
  inversion H; subst df.
  exists ia, idt, rs1, rs2, st; repeat split; assumption.
Qed.

Lemma clean_columns (csv df : frame) :
  cleaned csv = Ok df ->
  columns df = map rename_label (columns csv)
  \/ columns df = map rename_label (columns csv ++ ["sale_type"]).
Proof.
  intros H; apply clean_steps in H.
  destruct H as (ia & idt & rs1 & rs2 & st & _ & _ & _ & _ & _ & ->).
  unfold rename; simpl.
  destruct (assign_col_columns "sale_type" st (mkFrame (columns csv) rs2)) as [E|E];
    rewrite E; auto.
Qed.


(** C4, amended: cleaning takes a frame with the labels of the CSV and
    nothing else; on a frame that it has produced itself it stops at
    the first line, since no column is labelled [Amount] any more.
    The output is therefore never left unchanged by a second pass. *)
Theorem clean_not_idempotent (csv df : frame) :
  cleaned csv = Ok df ->
  cleaned df = Raise (KeyError "Amount") /\ cleaned df <> Ok df.
Proof.
  intros H.
  assert (E : cleaned df = Raise (KeyError "Amount")).
  { unfold cleaned, clean, loc.
    destruct (clean_columns csv df H) as [-> | ->];
      rewrite rename_drops_Amount; reflexivity. }
  split; [exact E | rewrite E; discriminate].
Qed.


(** What [load_data] returns when it returns. *)
Lemma load_data_table (csv df : frame) (t : table) :
  loaded csv = Ok (df, t) ->
  cleaned csv = Ok df
  /\ t = mkTable false 0 (mkFrame (columns df) (map (map sql_value) (rows df))).
Proof.
  unfold loaded, load_data, to_sql_replace; fold cleaned; intros H.
  destruct (cleaned csv) as [d|] eqn:E; simpl in H; [|discriminate].
  destruct (distinct_names (columns d)); simpl in H; [|discriminate].
  inversion H; subst; auto.
Qed.


(** C3: in the frame that ingestion produces from a rectangular CSV,
    the [sale_type] of every row is [Wholesale] when its boxes shipped
    exceed 100 or its amount exceeds 5000, either one being enough,
    and [Retail] otherwise. *)
Theorem sale_type_assigned (csv df : frame) :
  rectangular csv ->
  cleaned csv = Ok df ->
  exists j,
    col_index "sale_type" (columns df) = Some j
    /\ forall ib ia,
         col_index "Boxes Shipped" (columns csv) = Some ib ->
         col_index "Amount" (columns csv) = Some ia ->
         nth_error (columns df) ib = Some "boxes_shipped"
         /\ nth_error (columns df) ia = Some "amount"
         /\ forall row, In row (rows df) ->
              get j row
              = Str (if exceeds (get ib row) 100 || exceeds (get ia row) 5000
                     then "Wholesale" else "Retail").
Proof.
  intros Hrect H; apply clean_steps in H.
  destruct H as (ia0 & idt & rs1 & rs2 & st & Ha0 & Hd & H1 & H2 & Hst & ->).
  set (cols := columns csv) in *.
  assert (Hlen : forall row, In row rs2 -> List.length row = List.length cols).
  { apply (transform_col_length _ idt _ rs1 rs2 H2).
    apply (transform_col_length _ ia0 _ (rows csv) rs1 H1).
    exact Hrect. }
  assert (Hlabels : forall more ib ia,
             col_index "Boxes Shipped" cols = Some ib ->
             col_index "Amount" cols = Some ia ->
             nth_error (map rename_label (cols ++ more)) ib = Some "boxes_shipped"
             /\ nth_error (map rename_label (cols ++ more)) ia = Some "amount").
  { intros more ib ia Hb Ha.
    apply (col_index_app_l _ _ more), col_index_nth in Hb.
    apply (col_index_app_l _ _ more), col_index_nth in Ha.
    split; rewrite nth_error_map; [rewrite Hb | rewrite Ha]; reflexivity. }
  unfold rename, assign_col; simpl; fold cols.
  destruct (col_index "sale_type" cols) as [j|] eqn:Ej; simpl.
  - exists j; split.
    { now rewrite (col_index_rename "sale_type" _ rename_keeps_sale_type). }
    intros ib ia Hb Ha.
    destruct (Hlabels [] ib ia Hb Ha) as [Lb La]; rewrite app_nil_r in Lb, La.
    split; [exact Lb|]; split; [exact La|].
    intros row Hin; apply in_map_iff in Hin.
    destruct Hin as [[r v] [<- Hin]]; simpl.
    pose proof (Hlen r (in_combine_l _ _ _ _ Hin)) as Hr.
    pose proof (mapM_In_combine _ _ _ _ _ Hst Hin) as Hv.
    assert (ib <> j).
    { intros ->; apply col_index_nth in Hb, Ej; congruence. }
    assert (ia <> j).
    { intros ->; apply col_index_nth in Ha, Ej; congruence. }
    rewrite get_set_nth_same by (rewrite Hr; now apply (col_index_lt "sale_type")).
    rewrite !get_set_nth_other by assumption.
    now apply (sale_type_rule_value cols).
  - exists (List.length cols); split.
    { rewrite (col_index_rename "sale_type" _ rename_keeps_sale_type).
      now apply col_index_app_new. }
    intros ib ia Hb Ha.
    destruct (Hlabels ["sale_type"] ib ia Hb Ha) as [Lb La].
    split; [exact Lb|]; split; [exact La|].
    intros row Hin; apply in_map_iff in Hin.
    destruct Hin as [[r v] [<- Hin]]; simpl.
    pose proof (Hlen r (in_combine_l _ _ _ _ Hin)) as Hr.
    pose proof (mapM_In_combine _ _ _ _ _ Hst Hin) as Hv.
    rewrite <- Hr, get_app_new.
    rewrite !get_app_old
      by (rewrite Hr; eapply col_index_lt; eassumption).
    now apply (sale_type_rule_value cols).
Qed.

End IngestionFacts.

(** *** Ingestion of the sample file *)

Example sample_ingestion :
  load_data float_of_decimal strptime_dby sample_csv
  = Ok (sample_clean, mkTable false 0 sample_clean).
Proof. reflexivity. Qed.

Lemma sale_type_assigned_witness :
  exists j,
    col_index "sale_type" (columns sample_clean) = Some j
    /\ forall ib ia,
         col_index "Boxes Shipped" (columns sample_csv) = Some ib ->
         col_index "Amount" (columns sample_csv) = Some ia ->
         nth_error (columns sample_clean) ib = Some "boxes_shipped"
         /\ nth_error (columns sample_clean) ia = Some "amount"
         /\ forall row, In row (rows sample_clean) ->
              get j row
              = Str (if exceeds (get ib row) 100 || exceeds (get ia row) 5000
                     then "Wholesale" else "Retail").
Proof.
  apply (sale_type_assigned float_of_decimal strptime_dby sample_csv sample_clean).
  - intros row [<-|[<-|[<-|[]]]]; reflexivity.
  - reflexivity.
Defined.

Example many_boxes_is_wholesale :
  sale_type_rule ["Boxes Shipped"; "Amount"] (boxes_and_amount 150 10)
  = Ok (Str "Wholesale").
Proof. reflexivity. Qed.

Example small_sale_is_retail :
  sale_type_rule ["Boxes Shipped"; "Amount"] (boxes_and_amount 5 10)
  = Ok (Str "Retail").
Proof. reflexivity. Qed.

Example large_amount_is_wholesale :
  sale_type_rule ["Boxes Shipped"; "Amount"] (boxes_and_amount 5 6000)
  = Ok (Str "Wholesale").
Proof. reflexivity. Qed.

Example at_the_limits_is_retail :
  sale_type_rule ["Boxes Shipped"; "Amount"] (boxes_and_amount 100 5000)
  = Ok (Str "Retail").
Proof. reflexivity. Qed.

(** C4, as stated, fails: cleaning the cleaned sample again does not
    give the cleaned sample back, it raises. *)
Lemma second_cleaning_raises :
  clean float_of_decimal strptime_dby sample_csv = Ok sample_clean
  /\ clean float_of_decimal strptime_dby sample_clean = Raise (KeyError "Amount").
Proof. split; reflexivity. Qed.

Lemma clean_not_idempotent_witness :
  clean float_of_decimal strptime_dby sample_clean = Raise (KeyError "Amount")
  /\ clean float_of_decimal strptime_dby sample_clean <> Ok sample_clean.
Proof.
  apply (clean_not_idempotent float_of_decimal strptime_dby sample_csv sample_clean).
  reflexivity.
Defined.

(** C10: the sales file is ingested into a table without an [id]
    column.  On that table an update, an override or a delete by id is
    not a statement that matches no row: sqlite rejects it.  The record
    that the form "Add New Sale" inserts afterwards is stored without
    an id as well, and the statements are rejected as before. *)
Theorem ingested_sample_has_no_ids :
  load_data float_of_decimal strptime_dby sample_csv
  = Ok (sample_clean, mkTable false 0 sample_clean)
  /\ init_db (Some (mkTable false 0 sample_clean)) = mkTable false 0 sample_clean
  /\ update_sale sample_form 1 (mkTable false 0 sample_clean) = Raise OperationalError
  /\ delete_sale 1 (mkTable false 0 sample_clean) = Raise OperationalError
  /\ override_sale_type "Retail" 1 (mkTable false 0 sample_clean)
     = Raise OperationalError
  /\ exists t',
       add_sale sample_form (mkTable false 0 sample_clean)
       = Ok (reloaded t' "Sale added")
       /\ rows (content t') = rows sample_clean ++ [form_cells sample_form]
       /\ has_column t' "id" = false
       /\ update_sale sample_form 1 t' = Raise OperationalError
       /\ delete_sale 1 t' = Raise OperationalError.
Proof.
  repeat (split; [reflexivity|]).
  eexists; split; [reflexivity|]; repeat split.
Qed.

(** ** Month-over-month drops *)

Local Open Scope float_scope.

(** *** Division by zero and by NaN in binary64 *)

Lemma zero_prior (c : float) :
  (0 <=? c) = true -> c / 0 - 1 = (if 0 <? c then infinity else nan).
Proof.
  intros H; apply Prim2SF_inj.
  rewrite FloatAxioms.sub_spec, FloatAxioms.div_spec, FloatAxioms.ltb_spec.
  rewrite FloatAxioms.leb_spec in H.
  destruct (Prim2SF c) as [sg|sg| |sg m e];
    try destruct sg; try (vm_compute in H; discriminate); reflexivity.
Qed.

Lemma nan_prior (c : float) : ((c / nan - 1) * 100 <? -50) = false.
Proof.
  rewrite FloatAxioms.ltb_spec, FloatAxioms.mul_spec, FloatAxioms.sub_spec,
    FloatAxioms.div_spec.
  destruct (Prim2SF c) as [sg|sg| |sg m e]; try destruct sg; reflexivity.
Qed.

Lemma nonnegative_is_number (c : float) : (0 <=? c) = true -> is_nan c = false.
Proof.
  unfold is_nan; rewrite FloatAxioms.leb_spec, FloatAxioms.eqb_spec.
  destruct (Prim2SF c) as [sg|sg| |sg m e];
    try destruct sg; try (vm_compute; congruence).
  all: intros _; unfold SFeqb, SFcompare.
  all: rewrite Z.compare_refl, Pos.compare_refl; reflexivity.
Qed.

Lemma nonnegative_no_nan (s : list float) : nonnegative s -> no_nan s.
Proof.
  unfold nonnegative, no_nan; intros H.
  eapply Forall_impl; [|exact H].
  intros c Hc; now apply nonnegative_is_number.
Qed.

(** *** The series and its shift *)

Lemma ffill_from_no_nan (last : float) (s : list float) :
  no_nan s -> ffill_from last s = s.
Proof.
  intros H; revert last; induction H as [|x xs Hx _ IH]; intros last; simpl.
  - reflexivity.
  - rewrite Hx, IH; reflexivity.
Qed.

Lemma combine_removelast {A B : Type} (l : list A) (p : B) (m : list B) :
  List.length m = List.length l ->
  combine l (p :: removelast m) = combine l (p :: m).
Proof.
  revert p m; induction l as [|x l IH]; intros p m H; [reflexivity|].
  destruct m as [|y m]; [discriminate|]; simpl in H.
  destruct m as [|z m].
  - destruct l; [reflexivity | discriminate].
  - change (removelast (y :: z :: m)) with (y :: removelast (z :: m)).
    cbn [combine]; f_equal.
    apply (IH y (z :: m)); simpl in *; lia.
Qed.

Lemma nth_error_combine {A B : Type} (l : list A) (m : list B) (i : nat)
    (a : A) (b : B) :
  nth_error (combine l m) i = Some (a, b)
  <-> nth_error l i = Some a /\ nth_error m i = Some b.
Proof.
  revert m i; induction l as [|x l IH]; intros m i.
  - destruct i; simpl; split; [discriminate| |discriminate|];
      intros [H _]; discriminate.
  - destruct m as [|y m].
    + destruct i; simpl; split; try discriminate; intros [_ H]; discriminate.
    + destruct i as [|i]; simpl.
      * split; [intros H; inversion H; auto | intros [H1 H2]; congruence].
      * apply IH.
Qed.

Lemma In_enumerate_from {A : Type} (l : list A) (a i : nat) (v : A) :
  In (i, v) (combine (seq a (List.length l)) l)
  <-> (a <= i)%nat /\ nth_error l (i - a) = Some v.
Proof.
  revert a; induction l as [|x l IH]; intros a; simpl.
  - split; [contradiction|]; intros [_ H]; destruct (i - a)%nat; discriminate.
  - rewrite IH; split.
    + intros [H|[Hle H]].
      * inversion H; subst; split; [lia|]; now rewrite Nat.sub_diag.
      * split; [lia|].
        replace (i - a)%nat with (S (i - S a)) by lia; exact H.
    + intros [Hle H].
      destruct (Nat.eq_dec i a) as [->|Hne].
      * rewrite Nat.sub_diag in H; simpl in H; left; congruence.
      * right; split; [lia|].
        replace (i - a)%nat with (S (i - S a)) in H by lia; exact H.
Qed.

Lemma In_enumerate {A : Type} (l : list A) (i : nat) (v : A) :
  In (i, v) (enumerate l) <-> nth_error l i = Some v.
Proof.
  unfold enumerate; rewrite In_enumerate_from, Nat.sub_0_r.
  split; [tauto | intros H; split; [lia | exact H]].
Qed.

(** A month is flagged when its value and the value before it (NaN
    before the first) give a change below -50. *)
Lemma flagged_iff (s : list float) (i : nat) :
  no_nan s ->
  In i (flagged s)
  <-> exists c q,
        nth_error s i = Some c /\ nth_error (nan :: s) i = Some q
        /\ ((c / q - 1) * 100 <? -50) = true.
Proof.
  intros Hs; unfold flagged, drops, monthly_changes, pct_change, ffill, shift.
  rewrite (ffill_from_no_nan nan s Hs), combine_removelast by reflexivity.
  rewrite in_map_iff; split.
  - intros [[k v] [Hk Hin]]; simpl in Hk; subst k.
    apply filter_In in Hin; destruct Hin as [Hin Hlt]; simpl in Hlt.
    apply In_enumerate in Hin.
    rewrite !nth_error_map in Hin.
    destruct (nth_error (combine s (nan :: s)) i) as [[c q]|] eqn:E;
      simpl in Hin; [|discriminate].
    apply nth_error_combine in E; destruct E as [Hc Hq].
    inversion Hin; subst v.
    now exists c, q.
  - intros (c & q & Hc & Hq & Hlt).
    exists (i, (c / q - 1) * 100); split; [reflexivity|].
    apply filter_In; split; [|exact Hlt].
    apply In_enumerate; rewrite !nth_error_map.
    now rewrite (proj2 (nth_error_combine s (nan :: s) i c q) (conj Hc Hq)).
Qed.

(** C7, as stated, fails: from 3 to the float just below 1.5 the value
    falls by more than half, and [((curr - prev) / prev) * 100] is
    below -50, but the month is not flagged: the code divides first and
    the rounding of the quotient hides the drop. *)
Lemma rounding_hides_a_drop :
  flagged [3; just_below_half_of_3] = []
  /\ (((just_below_half_of_3 - 3) / 3) * 100 <? -50) = true.
Proof. split; reflexivity. Qed.

(** C7, amended: on a series of numbers the flagged months are exactly
    those after the first at which [(curr / prev - 1) * 100], computed
    in binary64 in this order, is below -50; the first month is never
    flagged. *)
Theorem flagged_months (s : list float) :
  no_nan s ->
  ~ In 0%nat (flagged s)
  /\ forall i,
       In i (flagged s)
       <-> exists j curr prev,
             i = S j /\ nth_error s j = Some prev /\ nth_error s (S j) = Some curr
             /\ ((curr / prev - 1) * 100 <? -50) = true.
Proof.
  intros Hs; split.
  - intros H; apply (flagged_iff s 0 Hs) in H.
    destruct H as (c & q & _ & Hq & Hlt); simpl in Hq; inversion Hq; subst q.
    rewrite nan_prior in Hlt; discriminate.
  - intros i; rewrite (flagged_iff s i Hs); split.
    + intros (c & q & Hc & Hq & Hlt); destruct i as [|j].
      * simpl in Hq; inversion Hq; subst q.
        rewrite nan_prior in Hlt; discriminate.
      * exists j, c, q; simpl in Hq; auto.
    + intros (j & c & q & -> & Hq & Hc & Hlt); now exists c, q.
Qed.

Lemma flagged_months_witness :
  ~ In 0%nat (flagged [1000; 1000; 400])
  /\ forall i,
       In i (flagged [1000; 1000; 400])
       <-> exists j curr prev,
             i = S j /\ nth_error [1000; 1000; 400] j = Some prev
             /\ nth_error [1000; 1000; 400] (S j) = Some curr
             /\ ((curr / prev - 1) * 100 <? -50) = true.
Proof.
  apply (flagged_months [1000; 1000; 400]).
  repeat constructor.
Defined.

Example drop_of_sixty_percent : drops [1000; 1000; 400] = [(2%nat, -60)].
Proof. reflexivity. Qed.

Example drop_of_forty_percent : drops [1000; 1000; 600] = [].
Proof. reflexivity. Qed.

(** C9: when the sum of a month is 0 and no sum is negative, the
    change computed for the month after it is plus infinity if that
    month has sales and NaN if it has none; neither is below -50, so
    that month is not flagged, and nothing is raised on the way: all
    of it is float arithmetic. *)
Theorem zero_month_flags_nothing (s : list float) (i : nat) (curr : float) :
  nonnegative s ->
  nth_error s i = Some 0 ->
  nth_error s (S i) = Some curr ->
  nth_error (pct_change s) (S i) = Some (if 0 <? curr then infinity else nan)
  /\ ~ In (S i) (flagged s).
Proof.
  intros Hs H0 Hc.
  pose proof (nonnegative_no_nan s Hs) as Hn.
  assert (Hpos : (0 <=? curr) = true).
  { unfold nonnegative in Hs; rewrite Forall_forall in Hs.
    apply Hs; eapply nth_error_In; eassumption. }
  split.
  - unfold pct_change, ffill, shift.
    rewrite (ffill_from_no_nan nan s Hn), combine_removelast by reflexivity.
    rewrite nth_error_map.
    rewrite (proj2 (nth_error_combine s (nan :: s) (S i) curr 0) (conj Hc H0)).
    simpl; now rewrite zero_prior.
  - intros H; apply (flagged_iff s (S i) Hn) in H.
    destruct H as (c & q & Hc' & Hq & Hlt); simpl in Hq.
    rewrite Hc in Hc'; rewrite H0 in Hq; inversion Hc'; inversion Hq; subst c q.
    rewrite zero_prior in Hlt by exact Hpos.
    destruct (0 <? curr); vm_compute in Hlt; discriminate.
Qed.

Lemma zero_month_flags_nothing_witness :
  (nth_error (pct_change [200; 0; 50; 0; 0]) 2 = Some infinity
   /\ ~ In 2%nat (flagged [200; 0; 50; 0; 0]))
  /\ (nth_error (pct_change [200; 0; 50; 0; 0]) 4 = Some nan
      /\ ~ In 4%nat (flagged [200; 0; 50; 0; 0])).
Proof.
  split.
  - apply (zero_month_flags_nothing [200; 0; 50; 0; 0] 1 50);
      [repeat constructor | reflexivity | reflexivity].
  - apply (zero_month_flags_nothing [200; 0; 50; 0; 0] 3 0);
      [repeat constructor | reflexivity | reflexivity].
Defined.

Example zero_months : flagged [200; 0; 50; 0; 0] = [1%nat; 3%nat].
Proof. reflexivity. Qed.

Local Close Scope float_scope.

(** ** Currency stripping *)

Lemma strip_currency_app (s t : string) :
  strip_currency (s ++ t) = (strip_currency s ++ strip_currency t)%string.
Proof.
  induction s as [|c s IH]; simpl; [reflexivity|].
  destruct (currency_char c); simpl; now rewrite IH.
Qed.

Lemma strip_currency_chars (s : string) (c : ascii) :
  In c (list_ascii_of_string (strip_currency s)) ->
  currency_char c = false /\ In c (list_ascii_of_string s).
Proof.
  induction s as [|a s IH]; simpl; [contradiction|].
  destruct (currency_char a) eqn:E; simpl.
  - intros H; destruct (IH H); auto.
  - intros [<-|H]; [auto | destruct (IH H); auto].
Qed.

Lemma strip_currency_fixed (s : string) :
  (forall c, In c (list_ascii_of_string s) -> currency_char c = false) ->
  strip_currency s = s.
Proof.
  induction s as [|a s IH]; simpl; intros H; [reflexivity|].
  rewrite (H a (or_introl eq_refl)), IH; [reflexivity|].
  intros c Hc; apply H; now right.
Qed.

Lemma strip_currency_filter (s : string) :
  list_ascii_of_string (strip_currency s)
  = filter (fun c => negb (currency_char c)) (list_ascii_of_string s).
Proof.
  induction s as [|a s IH]; simpl; [reflexivity|].
  destruct (currency_char a); simpl; now rewrite IH.
Qed.

(** The replacement of line 86 keeps, in their order, exactly the
    characters that are no dollar sign, comma or space: it leaves none
    of the three, wherever they stood, removes nothing else, and is
    the identity on its own results. *)
Theorem strip_currency_removes_symbols (s t : string) :
  list_ascii_of_string (strip_currency s)
  = filter (fun c => negb (Ascii.eqb c "$" || Ascii.eqb c "," || Ascii.eqb c " "))
           (list_ascii_of_string s)
  /\ (forall c, In c (list_ascii_of_string (strip_currency s)) ->
                c <> "$"%char /\ c <> ","%char /\ c <> " "%char)
  /\ strip_currency (s ++ "$, " ++ t) = (strip_currency s ++ strip_currency t)%string
  /\ strip_currency (strip_currency s) = strip_currency s.
Proof.
  split; [exact (strip_currency_filter s)|]; split; [|split].
  - intros c Hc; apply strip_currency_chars in Hc; destruct Hc as [Hc _].
    unfold currency_char in Hc.
    apply orb_false_iff in Hc; destruct Hc as [Hc H3].
    apply orb_false_iff in Hc; destruct Hc as [H1 H2].
    apply Ascii.eqb_neq in H1, H2, H3; auto.
  - rewrite !strip_currency_app; reflexivity.
  - apply strip_currency_fixed; intros c Hc.
    now apply strip_currency_chars in Hc.
Qed.

(** ** Product categories *)

Lemma prefix_app (sub s : string) :
  String.prefix sub s = true <-> exists after, s = (sub ++ after)%string.
Proof.
  revert s; induction sub as [|a sub IH]; intros s.
  - destruct s; simpl; split; intros _; try reflexivity; eexists; reflexivity.
  - destruct s as [|b s]; simpl.
    + split; [discriminate | intros [x H]; discriminate].
    + destruct (ascii_dec a b) as [->|Hne].
      * rewrite IH; split; intros [x H]; exists x; [now subst | now inversion H].
      * split; [discriminate | intros [x H]; inversion H; congruence].
Qed.

Lemma contains_cons (sub : string) (c : ascii) (s : string) :
  contains sub (String c s) = String.prefix sub (String c s) || contains sub s.
Proof. reflexivity. Qed.

Lemma contains_empty (sub : string) :
  contains sub EmptyString = String.prefix sub EmptyString.
Proof. unfold contains; apply orb_false_r. Qed.

Lemma contains_occurs (sub s : string) : contains sub s = true <-> occurs sub s.
Proof.
  unfold occurs; induction s as [|c s IH].
  - rewrite contains_empty, prefix_app; split.
    + intros [after H]; now exists EmptyString, after.
    + intros [[|b before] [after H]]; [now exists after | discriminate].
  - rewrite contains_cons, orb_true_iff, prefix_app, IH; split.
    + intros [[after H]|[before [after H]]].
      * now exists EmptyString, after.
      * exists (String c before), after; simpl; now rewrite H.
    + intros [[|b before] [after H]].
      * left; now exists after.
      * right; exists before, after; simpl in H; now inversion H.
Qed.

(** [categorize_product] tests the three words in the order Dark, Milk,
    Syrup, anywhere in the product name and with this very
    capitalisation: the first that occurs decides, and a name with none
    of them is [Other]. *)
Theorem categorize_product_spec (product : string) :
  (categorize_product product = "Dark Chocolate" <-> occurs "Dark" product)
  /\ (categorize_product product = "Milk Chocolate"
      <-> ~ occurs "Dark" product /\ occurs "Milk" product)
  /\ (categorize_product product = "Syrups"
      <-> ~ occurs "Dark" product /\ ~ occurs "Milk" product
          /\ occurs "Syrup" product)
  /\ (categorize_product product = "Other"
      <-> ~ occurs "Dark" product /\ ~ occurs "Milk" product
          /\ ~ occurs "Syrup" product).
Proof.
  unfold categorize_product.
  rewrite <- !contains_occurs.
  destruct (contains "Dark" product), (contains "Milk" product),
    (contains "Syrup" product);
    repeat split; intros; try discriminate; try tauto;
    repeat match goal with
           | H : _ /\ _ |- _ => destruct H
           | H : ~ (true = true) |- _ => exfalso; apply H; reflexivity
           end; try discriminate; try congruence.
Qed.

Example dark_wins_over_milk :
  categorize_product "Milk Bars with Dark Swirl" = "Dark Chocolate".
Proof. reflexivity. Qed.

Example lower_case_is_other : categorize_product "85% dark bars" = "Other".
Proof. reflexivity. Qed.

(** ** Ingestion, row by row *)

Lemma mapM_Forall2 {A B : Type} (f : A -> result B) (l : list A) (out : list B) :
  mapM f l = Ok out -> Forall2 (fun x y => f x = Ok y) l out.
Proof.
  revert out; induction l as [|x l IH]; intros out H; simpl in H.
  - inversion H; constructor.
  - destruct (f x) as [y|e] eqn:E; simpl in H; [|discriminate].
    destruct (mapM f l) as [ys|e]; simpl in H; [|discriminate].
    inversion H; subst out; constructor; [exact E | now apply IH].
Qed.


Lemma mapM_raises {A B : Type} (f : A -> result B) (l : list A) (e : exn) :
  (forall x e', f x = Raise e' -> e' = e) ->
  (exists x e', In x l /\ f x = Raise e') ->
  mapM f l = Raise e.
Proof.
  intros Honly; induction l as [|x l IH]; intros (y & e' & Hin & Hy).
  - contradiction.
  - simpl; destruct (f x) as [v|e0] eqn:E; simpl.
    + destruct Hin as [->|Hin]; [congruence|].
      rewrite IH; [reflexivity | now exists y, e'].
    + now rewrite (Honly x e0 E).
Qed.

Lemma Forall2_map_combine {A B C : Type} (P : A -> B -> Prop) (g : A * B -> C)
    (l : list A) (m : list B) :
  Forall2 P l m ->
  Forall2 (fun x z => exists y, P x y /\ z = g (x, y)) l (map g (combine l m)).
Proof.
  induction 1 as [|x y l m Hxy _ IH]; simpl; constructor; [|exact IH].
  now exists y.
Qed.

Lemma Forall2_compose {A B C : Type} (P : A -> B -> Prop) (Q : B -> C -> Prop)
    (l : list A) (m : list B) (n : list C) :
  Forall2 P l m -> Forall2 Q m n ->
  Forall2 (fun x z => exists y, P x y /\ Q y z) l n.
Proof.
  intros H; revert n; induction H as [|x y l m Hxy _ IH]; intros n Hn;
    inversion Hn; subst; constructor; [now exists y | now apply IH].
Qed.

Lemma Forall2_nth_error {A B : Type} (P : A -> B -> Prop) (l : list A)
    (m : list B) (k : nat) (x : A) (y : B) :
  Forall2 P l m -> nth_error l k = Some x -> nth_error m k = Some y -> P x y.
Proof.
  intros H; revert k; induction H as [|a b l m Hab _ IH]; intros k Hx Hy.
  - destruct k; discriminate.
  - destruct k as [|k]; simpl in *; [congruence | now apply (IH k)].
Qed.

Lemma Forall2_In_r {A B : Type} (P : A -> B -> Prop) (l : list A) (m : list B)
    (y : B) :
  Forall2 P l m -> In y m -> exists x, In x l /\ P x y.
Proof.
  induction 1 as [|a b l m Hab _ IH]; intros Hin; [contradiction|].
  destruct Hin as [<-|Hin].
  - exists a; split; [now left | assumption].
  - destruct (IH Hin) as [x [Hx Hp]]; exists x; split; [now right | assumption].
Qed.

Lemma transform_col_Forall2 (f : cell -> result cell) (i : nat)
    (rs rs' : list (list cell)) :
  transform_col f i rs = Ok rs' ->
  Forall2 (fun r r' => exists v, f (get i r) = Ok v /\ r' = set_nth i v r) rs rs'.
Proof.
  unfold transform_col; intros H.
  destruct (mapM (fun r => f (get i r)) rs) as [vs|e] eqn:E; simpl in H;
    [|discriminate].
  inversion H; subst rs'.
  apply mapM_Forall2 in E.
  apply (Forall2_map_combine _ (fun rv => set_nth i (snd rv) (fst rv))) in E.
  exact E.
Qed.

(** Where the renamed frame has its [amount] column. *)
Lemma rename_to_amount (c : string) :
  rename_label c = "amount" <-> c = "Amount" \/ c = "amount".
Proof.
  unfold rename_label; split.
  - repeat match goal with
           | |- context [String.eqb c ?l] =>
               let E := fresh "E" in destruct (String.eqb c l) eqn:E
           end; try discriminate; auto.
    apply String.eqb_eq in E3; auto.
  - intros [-> | ->]; reflexivity.
Qed.

Lemma col_index_amount (cols more : list string) (ia : nat) :
  col_index "amount" cols = None ->
  col_index "Amount" cols = Some ia ->
  col_index "amount" (map rename_label (cols ++ more)) = Some ia.
Proof.
  revert ia; induction cols as [|c cols IH]; intros ia Hlow Hup; simpl in *;
    [discriminate|].
  destruct (String.eqb c "amount") eqn:E1; [discriminate|].
  destruct (col_index "amount" cols) as [k|] eqn:E2; [discriminate|].
  destruct (String.eqb c "Amount") eqn:E3.
  - apply String.eqb_eq in E3; subst c; inversion Hup; reflexivity.
  - destruct (String.eqb (rename_label c) "amount") eqn:E4.
    + apply String.eqb_eq, rename_to_amount in E4.
      apply String.eqb_neq in E1, E3; tauto.
    + destruct (col_index "Amount" cols) as [k|]; [|discriminate].
      inversion Hup; now rewrite (IH k eq_refl eq_refl).
Qed.

Lemma astype_float_is_float (fos : string -> option float) (c v : cell) :
  astype_float fos c = Ok v -> exists f, v = Float f.
Proof.
  destruct c as [z|f|t|]; simpl; intros H; try (inversion H; eauto; fail).
  destruct (fos t) as [f|]; [inversion H; eauto | discriminate].
Qed.

Lemma astype_float_raises (fos : string -> option float) (c : cell) (e : exn) :
  astype_float fos c = Raise e -> e = ValueError.
Proof.
  destruct c as [z|f|t|]; simpl; intros H; try discriminate.
  destruct (fos t); [discriminate | now inversion H].
Qed.

Lemma anomalies_on_floats (df : frame) (i : nat) :
  col_index "amount" (columns df) = Some i ->
  (forall row, In row (rows df) -> exists f, get i row = Float f) ->
  anomalies df = Ok (mkFrame (columns df) (filter (above_15000 i) (rows df))).
Proof.
  intros Hi Hfloat; unfold anomalies, loc; rewrite Hi; simpl.
  rewrite (mapM_pointwise _ (above_15000 i)).
  - simpl; unfold select_mask; now rewrite mask_is_filter.
  - intros row Hrow; destruct (Hfloat row Hrow) as [f Hf].
    unfold above_15000; now rewrite Hf.
Qed.

Lemma Forall2_mapM {A B : Type} (f : A -> result B) (l : list A) (out : list B) :
  Forall2 (fun x y => f x = Ok y) l out -> mapM f l = Ok out.
Proof.
  induction 1 as [|x y l out Hxy _ IH]; simpl; [reflexivity|].
  now rewrite Hxy, IH.
Qed.

Lemma Forall2_weaken {A B : Type} (P Q : A -> B -> Prop) (l : list A) (m : list B) :
  (forall x y, P x y -> Q x y) -> Forall2 P l m -> Forall2 Q l m.
Proof. intros HPQ; induction 1; constructor; auto. Qed.

Lemma col_index_distinct (l1 l2 : string) (cols : list string) (i j : nat) :
  col_index l1 cols = Some i -> col_index l2 cols = Some j -> l1 <> l2 -> i <> j.
Proof.
  intros H1 H2 Hne ->; apply col_index_nth in H1, H2; congruence.
Qed.


Section IngestionByRowFacts.

Variable float_of_string : string -> option float.
Variable strptime : string -> option date.

Let cleaned := clean float_of_string strptime.
Let cleaned_row := clean_row float_of_string strptime.

Lemma clean_rows_related (csv df : frame) :
  cleaned csv = Ok df ->
  exists ia idt,
    col_index "Amount" (columns csv) = Some ia
    /\ col_index "Date" (columns csv) = Some idt
    /\ Forall2 (fun r r' => cleaned_row (columns csv) ia idt r = Ok r')
               (rows csv) (rows df).
Proof.
  intros H; apply clean_steps in H.
  destruct H as (ia & idt & rs1 & rs2 & st & Ha & Hd & H1 & H2 & Hst & ->).
  exists ia, idt; split; [exact Ha|]; split; [exact Hd|].
  apply transform_col_Forall2 in H1, H2.
  apply mapM_Forall2 in Hst.
  pose proof (Forall2_compose _ _ _ _ _ H1 H2) as H12.
  set (place := fun rv : list cell * cell =>
                  match col_index "sale_type" (columns csv) with
                  | Some j => set_nth j (snd rv) (fst rv)
                  | None => fst rv ++ [snd rv]
                  end).
  assert (Hrows : rows (rename (assign_col "sale_type" st
                                  (mkFrame (columns csv) rs2)))
                  = map place (combine rs2 st)).
  { unfold rename, assign_col, place; simpl.
    destruct (col_index "sale_type" (columns csv)); reflexivity. }
  rewrite Hrows.
  pose proof (Forall2_map_combine _ place _ _ Hst) as H3.
  pose proof (Forall2_compose _ _ _ _ _ H12 H3) as Hall.
  eapply Forall2_weaken; [|exact Hall].
  intros r r' (r2 & (r1 & (a & Ea & ->) & (d & Ed & ->)) & (v & Ev & ->)).
  unfold cleaned_row, clean_row; rewrite Ea; simpl; rewrite Ed; simpl.
  rewrite Ev; reflexivity.
Qed.

(** What a cleaned row keeps of the row it comes from. *)
Lemma clean_row_cells (cols : list string) (ia idt : nat) (r r' : list cell) :
  col_index "Amount" cols = Some ia ->
  col_index "Date" cols = Some idt ->
  List.length r = List.length cols ->
  cleaned_row cols ia idt r = Ok r' ->
  (exists f, get ia r' = Float f)
  /\ forall c, (c < List.length cols)%nat -> c <> ia -> c <> idt ->
               col_index "sale_type" cols <> Some c ->
               get c r' = get c r.
Proof.
  unfold cleaned_row, clean_row; intros Ha Hd Hlen H.
  assert (Hne : ia <> idt) by (apply (col_index_distinct "Amount" "Date" cols);
                               [assumption | assumption | discriminate]).
  pose proof (col_index_lt _ _ _ Ha) as Hia.
  destruct (astype_float _ _) as [a|] eqn:Ea; simpl in H; [|discriminate].
  destruct (to_iso_date _ _) as [d|] eqn:Ed; simpl in H; [|discriminate].
  destruct (sale_type_rule _ _) as [v|] eqn:Ev; simpl in H; [|discriminate].
  apply astype_float_is_float in Ea; destruct Ea as [f ->].
  set (r2 := set_nth idt d (set_nth ia (Float f) r)) in *.
  assert (Hlen2 : List.length r2 = List.length cols)
    by (unfold r2; now rewrite !set_nth_length).
  assert (Hget : get ia r2 = Float f).
  { unfold r2; rewrite get_set_nth_other by exact Hne.
    apply get_set_nth_same; now rewrite Hlen. }
  assert (Hkeep : forall c, c <> ia -> c <> idt -> get c r2 = get c r).
  { intros c H1 H2; unfold r2; now rewrite !get_set_nth_other. }
  destruct (col_index "sale_type" cols) as [j|] eqn:Ej; inversion H; subst r'.
  - assert (ia <> j) by (apply (col_index_distinct "Amount" "sale_type" cols);
                         [assumption | assumption | discriminate]).
    split.
    + exists f; now rewrite get_set_nth_other.
    + intros c _ H1 H2 H3.
      rewrite get_set_nth_other by congruence.
      now apply Hkeep.
  - split.
    + exists f; rewrite get_app_old by now rewrite Hlen2.
      exact Hget.
    + intros c Hc H1 H2 _.
      rewrite get_app_old by now rewrite Hlen2.
      now apply Hkeep.
Qed.

(** Ingestion works column by column, but when it goes through the
    frame it returns is the one obtained row by row: every row of the
    result is computed from the row of the CSV at the same place and
    from nothing else, so no row is added, dropped or moved. *)
Theorem clean_row_by_row (csv df : frame) :
  cleaned csv = Ok df ->
  exists ia idt,
    col_index "Amount" (columns csv) = Some ia
    /\ col_index "Date" (columns csv) = Some idt
    /\ mapM (cleaned_row (columns csv) ia idt) (rows csv) = Ok (rows df)
    /\ List.length (rows df) = List.length (rows csv).
Proof.
  intros H; destruct (clean_rows_related csv df H) as (ia & idt & Ha & Hd & Hall).
  exists ia, idt; split; [exact Ha|]; split; [exact Hd|].
  split; [now apply Forall2_mapM|].
  symmetry; eapply Forall2_length; exact Hall.
Qed.

(** Ingestion changes the amount, the date and the sale type of a row
    and nothing else: any other cell of the CSV is found unchanged, at
    the same place, in the frame that comes out. *)
Theorem clean_keeps_other_cells (csv df : frame) :
  rectangular csv ->
  cleaned csv = Ok df ->
  forall k r r' c,
    nth_error (rows csv) k = Some r ->
    nth_error (rows df) k = Some r' ->
    (c < List.length (columns csv))%nat ->
    col_index "Amount" (columns csv) <> Some c ->
    col_index "Date" (columns csv) <> Some c ->
    col_index "sale_type" (columns csv) <> Some c ->
    get c r' = get c r.
Proof.
  intros Hrect H k r r' c Hr Hr' Hc Hna Hnd Hns.
  destruct (clean_rows_related csv df H) as (ia & idt & Ha & Hd & Hall).
  pose proof (Forall2_nth_error _ _ _ k r r' Hall Hr Hr') as Hrow.
  assert (Hlen : List.length r = List.length (columns csv))
    by (apply Hrect; eapply nth_error_In; eassumption).
  destruct (clean_row_cells _ ia idt r r' Ha Hd Hlen Hrow) as [_ Hkeep].
  apply Hkeep; congruence.
Qed.

(** After ingestion the column [amount] holds floats and nothing else,
    so the high-value alert never raises on an ingested frame. *)
Theorem anomalies_after_ingestion (csv df : frame) :
  rectangular csv ->
  col_index "amount" (columns csv) = None ->
  cleaned csv = Ok df ->
  exists i out,
    col_index "amount" (columns df) = Some i
    /\ (forall row, In row (rows df) -> exists f, get i row = Float f)
    /\ anomalies df = Ok out
    /\ forall row, In row (rows out) -> In row (rows df).
Proof.
  intros Hrect Hlow H.
  destruct (clean_rows_related csv df H) as (ia & idt & Ha & Hd & Hall).
  assert (Hi : col_index "amount" (columns df) = Some ia).
  { destruct (clean_columns _ _ csv df H) as [-> | ->].
    - rewrite <- (app_nil_r (columns csv)); now apply col_index_amount.
    - now apply col_index_amount. }
  assert (Hfloat : forall row, In row (rows df) -> exists f, get ia row = Float f).
  { intros r' Hin.
    destruct (Forall2_In_r _ _ _ r' Hall Hin) as (r & Hr & Hrow).
    now destruct (clean_row_cells _ ia idt r r' Ha Hd (Hrect r Hr) Hrow). }
  exists ia; eexists; split; [exact Hi|]; split; [exact Hfloat|].
  split; [apply (anomalies_on_floats df ia Hi Hfloat)|].
  simpl; intros row Hrow; apply filter_In in Hrow; tauto.
Qed.

(** An amount that does not convert stops ingestion with a
    [ValueError], whatever the other columns hold, and [load_data] then
    returns no table to put in place of the old one. *)
Theorem malformed_amount_aborts (csv : frame) (ia : nat) (row : list cell) (e : exn) :
  col_index "Amount" (columns csv) = Some ia ->
  In row (rows csv) ->
  astype_float float_of_string (replace_currency (get ia row)) = Raise e ->
  cleaned csv = Raise ValueError
  /\ load_data float_of_string strptime csv = Raise ValueError.
Proof.
  intros Ha Hin He.
  assert (E : cleaned csv = Raise ValueError).
  { unfold cleaned, clean, loc, transform_col; rewrite Ha; simpl.
    rewrite (mapM_raises _ _ ValueError); [reflexivity| |].
    - intros x e'; apply astype_float_raises.
    - now exists row, e. }
  split; [exact E|].
  unfold load_data; fold cleaned; now rewrite E.
Qed.


End IngestionByRowFacts.

(** ** The table of [init_db] under the owner's buttons *)

Lemma column_index_In (label : string) (cols : list string) :
  In label cols -> column_index label cols <> None.
Proof.
  induction cols as [|c cols IH]; simpl; [contradiction|].
  intros [->|Hin].
  - unfold same_name; now rewrite String.eqb_refl.
  - destruct (same_name c label); [discriminate|].
    destruct (column_index label cols); [discriminate | now apply IH in Hin].
Qed.

Lemma keyed_matches (t : table) (id : Z) (row : list cell) :
  columns (content t) = sales_columns ->
  matches t id row = sql_eq_id (get 0 row) id.
Proof. intros H; unfold matches; now rewrite H. Qed.

Lemma keyed_prepare (t : table) (labels : list string) :
  columns (content t) = sales_columns ->
  (forall l, In l labels -> In l sales_columns) ->
  prepare t labels = Ok tt.
Proof.
  intros H Hin; unfold prepare.
  replace (forallb (has_column t) labels) with true; [reflexivity|].
  symmetry; apply forallb_forall; intros l Hl.
  unfold has_column; rewrite H.
  destruct (column_index l sales_columns) eqn:E; [reflexivity|].
  exfalso; apply (column_index_In l sales_columns); auto.
Qed.

Lemma form_row (f : sale_form) (row : list cell) :
  List.length row = 8%nat ->
  set_fields sales_columns (form_values f) row = get 0 row :: form_cells f.
Proof.
  intros H.
  do 8 (destruct row as [|? row]; [discriminate|]).
  destruct row; [reflexivity | discriminate].
Qed.

Lemma override_row (s : string) (row : list cell) :
  List.length row = 8%nat ->
  set_fields sales_columns [("sale_type", Str s)] row = set_nth 7 (Str s) row.
Proof.
  intros H.
  do 8 (destruct row as [|? row]; [discriminate|]).
  destruct row; [reflexivity | discriminate].
Qed.

Lemma new_row_keyed (f : sale_form) (t : table) :
  rowid_key t = true -> columns (content t) = sales_columns ->
  new_row t (form_values f) = Int (last_id t + 1) :: form_cells f.
Proof. intros Hk Hc; unfold new_row; rewrite Hk, Hc; reflexivity. Qed.








(** On the table of [init_db], "Add New Sale" appends one row, made of
    the next id and the values of the form, and hands the whole table
    back as session data; the id is one that no row had. *)
Theorem add_sale_appends (f : sale_form) (t : table) :
  keyed t ->
  absent (last_id t + 1) t
  /\ add_sale f t
     = Ok (reloaded
             (mkTable true (last_id t + 1)
                (mkFrame sales_columns
                   (rows (content t) ++ [Int (last_id t + 1) :: form_cells f])))
             "Sale added").
Proof.
  intros (Hk & H0 & Hc & Hrows & Hnd); split.
  - intros r Hr; rewrite (keyed_matches t _ r Hc).
    destruct (Hrows r Hr) as [_ (y & Hy & Hyr)].
    rewrite Hy; simpl; apply Z.eqb_neq; lia.
  - unfold add_sale, exec_insert.
    rewrite (keyed_prepare t _ Hc) by (simpl; tauto); simpl.
    now rewrite Hk, Hc, (new_row_keyed f t Hk Hc).
Qed.

(** On the table of [init_db], "Update Sale" writes all seven values
    of the form, those left blank as well, into the rows with the
    given id, keeps their id, and leaves every other row and the
    number of rows as they were. *)
Theorem update_sale_overwrites (f : sale_form) (id : Z) (t : table) :
  keyed t ->
  update_sale f id t
  = Ok (reloaded
          (mkTable true (last_id t)
             (mkFrame sales_columns
                (map (fun row => if sql_eq_id (get 0 row) id
                                 then get 0 row :: form_cells f else row)
                     (rows (content t)))))
          "Sale updated").
Proof.
  intros (Hk & H0 & Hc & Hrows & Hnd).
  unfold update_sale, exec_update.
  rewrite (keyed_prepare t _ Hc) by (simpl; tauto); simpl.
  rewrite Hk, Hc; do 4 f_equal.
  apply map_ext_in; intros row Hrow.
  rewrite (keyed_matches t id row Hc).
  destruct (sql_eq_id (get 0 row) id); [|reflexivity].
  apply form_row; now apply Hrows.
Qed.

(** On the table of [init_db], "Update Sale Type" changes the sale type
    of the rows with the given id and no other cell of the table. *)
Theorem override_changes_sale_type_only (s : string) (id : Z) (t : table) :
  keyed t ->
  override_sale_type s id t
  = Ok (reloaded
          (mkTable true (last_id t)
             (mkFrame sales_columns
                (map (fun row => if sql_eq_id (get 0 row) id
                                 then set_nth 7 (Str s) row else row)
                     (rows (content t)))))
          "Sale type updated").
Proof.
  intros (Hk & H0 & Hc & Hrows & Hnd).
  unfold override_sale_type, exec_update.
  rewrite (keyed_prepare t _ Hc) by (simpl; tauto); simpl.
  rewrite Hk, Hc; do 4 f_equal.
  apply map_ext_in; intros row Hrow.
  rewrite (keyed_matches t id row Hc).
  destruct (sql_eq_id (get 0 row) id); [|reflexivity].
  apply override_row; now apply Hrows.
Qed.

(** On a table with an [id] column, "Delete Sale" keeps, in their
    order, exactly the rows whose id is not the given one; afterwards
    no row has that id, and pressing the button again changes
    nothing. *)
Theorem delete_sale_removes (id : Z) (t : table) :
  has_column t "id" = true ->
  exists t',
    delete_sale id t = Ok (reloaded t' "Sale deleted")
    /\ columns (content t') = columns (content t)
    /\ rows (content t')
       = filter (fun row => negb (matches t id row)) (rows (content t))
    /\ absent id t'
    /\ delete_sale id t' = Ok (reloaded t' "Sale deleted").
Proof.
  intros Hid.
  assert (Hprep : forall u, columns (content u) = columns (content t) ->
                            prepare u ["id"] = Ok tt).
  { intros u Hu; unfold prepare, has_column; simpl; rewrite Hu.
    unfold has_column in Hid.
    destruct (column_index "id" (columns (content t))); [reflexivity | discriminate]. }
  set (t' := mkTable (rowid_key t) (last_id t)
               (select (fun row => negb (matches t id row)) (content t))).
  assert (Hsame : forall row, matches t' id row = matches t id row) by reflexivity.
  assert (Habs : absent id t').
  { intros row Hrow; simpl in Hrow; apply filter_In in Hrow.
    rewrite Hsame; destruct (matches t id row); [|reflexivity].
    destruct Hrow; discriminate. }
  exists t'; split; [|split; [reflexivity|]; split; [reflexivity|]; split;
                      [exact Habs|]].
  - unfold delete_sale, exec_delete; now rewrite (Hprep t eq_refl).
  - assert (Hfix : forall l, (forall row, In row l -> matches t' id row = false) ->
                   filter (fun row => negb (matches t' id row)) l = l).
    { induction l as [|r rs IH]; intros Hl; [reflexivity|].
      simpl; rewrite (Hl r (or_introl eq_refl)); simpl; f_equal.
      apply IH; intros row Hrow; apply Hl; now right. }
    unfold delete_sale, exec_delete; rewrite (Hprep t' eq_refl).
    unfold select; cbn [bind]; rewrite (Hfix _ Habs); reflexivity.
Qed.


Section AfterIngestion.

Variable float_of_string : string -> option float.
Variable strptime : string -> option date.


(** On the table that ingestion leaves for a CSV in the layout of the
    sales file, "Add New Sale" goes through: the record is stored after
    the ingested ones with the seven values of the form and no id. *)
Theorem add_sale_after_ingestion (csv df : frame) (t : table) (f : sale_form) :
  load_data float_of_string strptime csv = Ok (df, t) ->
  columns df = canonical_columns ->
  add_sale f t
  = Ok (reloaded
          (mkTable false 0
             (mkFrame canonical_columns
                (map (map sql_value) (rows df) ++ [form_cells f])))
          "Sale added").
Proof.
  intros H Hcols; apply load_data_table in H; destruct H as [_ ->].
  unfold add_sale, exec_insert, prepare, has_column, new_row;
    simpl; rewrite Hcols; reflexivity.
Qed.

End AfterIngestion.

(** ** Users *)

Lemma find_user_app (name : string) (users more : list user) :
  find_user name (users ++ more)
  = match find_user name users with
    | Some u => Some u
    | None => find_user name more
    end.
Proof.
  induction users as [|u users IH]; simpl; [reflexivity|].
  destruct (String.eqb (user_name u) name); [reflexivity | exact IH].
Qed.

Lemma find_user_None (name : string) (users : list user) :
  find_user name users = None <-> ~ In name (map user_name users).
Proof.
  induction users as [|u users IH]; simpl; [tauto|].
  destruct (String.eqb (user_name u) name) eqn:E.
  - apply String.eqb_eq in E; split; [discriminate | intros H; exfalso; auto].
  - apply String.eqb_neq in E; rewrite IH; tauto.
Qed.

Section UsersFacts.

Variable bleach_clean : string -> string.
Variable pbkdf2_hash : string -> string -> string.
Variable pbkdf2_verify : string -> string -> bool.

Let authenticate := authenticate_user bleach_clean pbkdf2_verify.
Let register := add_user bleach_clean pbkdf2_hash.

(** A registration that went through can log in: with the name and the
    password that were typed, [authenticate_user] answers [True] and
    the role that was chosen, provided the library verifies what it
    has hashed. *)
Theorem register_then_login (salt username password role : string)
    (users users' : list user) :
  (forall s p, pbkdf2_verify p (pbkdf2_hash s p) = true) ->
  register salt username password role users = (true, users') ->
  authenticate username password users' = (true, Some role).
Proof.
  intros Hverify H; unfold register, add_user in H.
  unfold authenticate, authenticate_user.
  destruct (find_user (bleach_clean username) users) eqn:E; inversion H; subst.
  rewrite find_user_app, E; simpl.
  rewrite String.eqb_refl; simpl.
  now rewrite Hverify.
Qed.

(** Registering never touches an account that exists: a name that is
    taken, or that cleans to a name that is taken, is refused with the
    table unchanged, and after any registration every earlier account
    is found with the hash and the role it had. *)
Theorem registration_keeps_accounts (salt username password role : string)
    (users : list user) :
  (In (bleach_clean username) (map user_name users) ->
     register salt username password role users = (false, users))
  /\ forall name u,
       find_user name users = Some u ->
       find_user name (snd (register salt username password role users)) = Some u.
Proof.
  unfold register, add_user; split.
  - intros Hin.
    destruct (find_user (bleach_clean username) users) eqn:E; [reflexivity|].
    apply find_user_None in E; contradiction.
  - intros name u Hu.
    destruct (find_user (bleach_clean username) users); simpl; [exact Hu|].
    now rewrite find_user_app, Hu.
Qed.

(** The names of the [users] table stay distinct under registration. *)
Theorem registration_keeps_names_distinct (salt username password role : string)
    (users : list user) :
  NoDup (map user_name users) ->
  NoDup (map user_name (snd (register salt username password role users))).
Proof.
  intros Hnd; unfold register, add_user.
  destruct (find_user (bleach_clean username) users) eqn:E; simpl; [exact Hnd|].
  apply find_user_None in E.
  rewrite map_app; simpl.
  apply NoDup_app; [exact Hnd | repeat constructor; auto |].
  intros name Hin [<-|[]]; contradiction.
Qed.

End UsersFacts.

(** ** The months of the forecast *)

Lemma month_begin_after_index (d : date) :
  (1 <= month d <= 12)%Z ->
  month_begin_after d
  = mkDate (year d + month d / 12) (month d mod 12 + 1) 1.
Proof.
  intros H; unfold month_begin_after.
  destruct (month d =? 12)%Z eqn:E.
  - apply Z.eqb_eq in E; rewrite E; reflexivity.
  - apply Z.eqb_neq in E.
    rewrite Z.div_small, Z.mod_small by lia.
    now rewrite Z.add_0_r.
Qed.

(** The months to forecast are the [periods] months that follow the
    last month of the data, one after the other and each on its first
    day: the label at place [k] lies [k + 1] months after the last
    month, January following December. *)
Theorem forecast_dates_follow (last_month : date) (periods : nat) :
  (1 <= month last_month <= 12)%Z ->
  List.length (forecast_dates last_month periods) = periods
  /\ forall k, (k < periods)%nat ->
       nth_error (forecast_dates last_month periods) k
       = Some (mkDate (year last_month + (month last_month + Z.of_nat k) / 12)
                      ((month last_month + Z.of_nat k) mod 12 + 1) 1).
Proof.
  intros Hm; unfold forecast_dates; split.
  - generalize (month_begin_after last_month).
    induction periods as [|n IH]; intros d; simpl; [reflexivity|].
    now rewrite IH.
  - intros k; revert last_month Hm k.
    induction periods as [|n IH]; intros d Hm k Hk; [lia|].
    destruct k as [|k]; simpl.
    + rewrite Z.add_0_r; f_equal; now apply month_begin_after_index.
    + assert (Hnext : (1 <= month (month_begin_after d) <= 12)%Z).
      { rewrite month_begin_after_index by exact Hm; simpl.
        pose proof (Z.mod_pos_bound (month d) 12); lia. }
      rewrite (IH (month_begin_after d) Hnext k) by lia.
      rewrite month_begin_after_index by exact Hm; simpl.
      f_equal.
      assert (Hq : (month d + Z.pos (Pos.of_succ_nat k))%Z
                   = (month d + 1 + Z.of_nat k)%Z) by lia.
      rewrite Hq.
      destruct (Z.eq_dec (month d) 12) as [E|E].
      * rewrite E; change (12 / 12)%Z with 1%Z; change (12 mod 12)%Z with 0%Z.
        replace (12 + 1 + Z.of_nat k)%Z with (Z.of_nat k + 1 + 1 * 12)%Z by lia.
        rewrite Z.div_add, Z.mod_add by lia.
        replace (0 + 1 + Z.of_nat k)%Z with (Z.of_nat k + 1)%Z by lia.
        f_equal; lia.
      * rewrite (Z.div_small (month d)), (Z.mod_small (month d)) by lia.
        rewrite Z.add_0_r; reflexivity.
Qed.

(** ** The derived column *)

Lemma map_combine_map {A B C : Type} (g : A -> B) (h : A * B -> C) (l : list A) :
  map h (combine l (map g l)) = map (fun x => h (x, g x)) l.
Proof. induction l as [|x l IH]; simpl; [reflexivity | now rewrite IH]. Qed.

(** On a frame whose products are strings and which has no [Category]
    column yet, line 311 appends that column and gives every row the
    category of its own product; a product that is not a string (a
    missing one) raises a [TypeError] instead. *)
Theorem add_category_appends (df : frame) (i : nat) :
  col_index "product" (columns df) = Some i ->
  col_index "Category" (columns df) = None ->
  ((forall row, In row (rows df) -> exists s, get i row = Str s) ->
   add_category df
   = Ok (mkFrame (columns df ++ ["Category"])
           (map (fun row => row ++ [Str (categorize_product (text (get i row)))])
                (rows df))))
  /\ ((exists row, In row (rows df) /\ forall s, get i row <> Str s) ->
      add_category df = Raise TypeError).
Proof.
  intros Hi Hc; unfold add_category, loc; rewrite Hi; simpl; split.
  - intros Hstr.
    rewrite (mapM_pointwise _ (fun row => Str (categorize_product (text (get i row))))).
    + simpl; unfold assign_col; rewrite Hc; f_equal; f_equal.
      apply map_combine_map.
    + intros row Hrow; destruct (Hstr row Hrow) as [s ->]; reflexivity.
  - intros (row & Hrow & Hnot).
    rewrite (mapM_raises _ _ TypeError); [reflexivity| |].
    + intros x e; destruct (get i x); simpl; intros H; now inversion H.
    + exists row, TypeError; split; [exact Hrow|].
      destruct (get i row) as [z|f|s|]; try reflexivity.
      exfalso; now apply (Hnot s).
Qed.

(** ** The alerts behind the role restriction *)

Lemma assign_col_rows (label : string) (vs : list cell) (df : frame)
    (row' : list cell) :
  In row' (rows (assign_col label vs df)) ->
  exists r v,
    In r (rows df)
    /\ row' = match col_index label (columns df) with
              | Some j => set_nth j v r
              | None => r ++ [v]
              end.
Proof.
  unfold assign_col; destruct (col_index label (columns df)); simpl;
    intros H; apply in_map_iff in H; destruct H as [[r v] [<- Hin]];
    exists r, v; (split; [now apply in_combine_l in Hin | reflexivity]).
Qed.

(** The high-value alert of a sales rep shows sales of that rep only.
    The alert is computed on what the filters and the sort keep of the
    restricted frame, with the column [Category] put in: every row it
    returns carries the username of the session and is, but for that
    column, a row of the data with that username. *)
Theorem sales_rep_alert_is_own (username : string)
    (df scoped kept filtered out : frame) (i : nat) :
  rectangular df ->
  col_index "sales_person" (columns df) = Some i ->
  restrict_to_role "Sales Rep" username df = Ok scoped ->
  columns kept = columns scoped ->
  (forall row, In row (rows kept) -> In row (rows scoped)) ->
  add_category kept = Ok filtered ->
  anomalies filtered = Ok out ->
  forall row, In row (rows out) ->
    get i row = Str username
    /\ exists r,
         In r (rows df) /\ get i r = Str username
         /\ forall c, (c < List.length (columns df))%nat ->
                      col_index "Category" (columns df) <> Some c ->
                      get c row = get c r.
Proof.
  intros Hrect Hi Hs Hcols Hsub Hcat Ha row Hrow.
  unfold restrict_to_role, loc in Hs; simpl in Hs; rewrite Hi in Hs; simpl in Hs.
  inversion Hs; subst scoped; clear Hs; simpl in Hcols, Hsub.
  (* the alert returns rows of the frame it is given *)
  unfold anomalies in Ha.
  destruct (loc _ "amount") as [k|]; simpl in Ha; [|discriminate].
  destruct (mapM _ _) as [mask|]; simpl in Ha; [|discriminate].
  inversion Ha; subst out; clear Ha; simpl in Hrow.
  apply in_map_iff in Hrow; destruct Hrow as [[row' b] [<- Hin]]; simpl.
  apply filter_In in Hin; destruct Hin as [Hin _]; apply in_combine_l in Hin.
  (* and that frame is the kept one with its categories *)
  unfold add_category in Hcat.
  destruct (loc _ "product") as [p|]; simpl in Hcat; [|discriminate].
  destruct (mapM _ _) as [cats|]; simpl in Hcat; [|discriminate].
  inversion Hcat; subst filtered; clear Hcat.
  apply assign_col_rows in Hin; destruct Hin as (r & v & Hr & Hrow').
  rewrite Hcols in Hrow'.
  apply Hsub, filter_In in Hr; destruct Hr as [Hr Huser].
  apply cell_eqb_Str in Huser.
  pose proof (Hrect r Hr) as Hlen.
  assert (Hsame : forall c, (c < List.length (columns df))%nat ->
                            col_index "Category" (columns df) <> Some c ->
                            get c row' = get c r).
  { intros c Hc Hnc; subst row'.
    destruct (col_index "Category" (columns df)) as [j|].
    - apply get_set_nth_other; congruence.
    - apply get_app_old; now rewrite Hlen. }
  assert (get i row' = get i r).
  { apply Hsame; [now apply (col_index_lt "sales_person")|].
    intros Hj; apply col_index_nth in Hi, Hj; congruence. }
  split; [congruence|].
  exists r; auto.
Qed.

(** ** Order of the flagged months *)

Lemma filter_enumerate_sorted {A : Type} (p : nat * A -> bool) (l : list A) (a : nat) :
  StronglySorted lt (map fst (filter p (combine (seq a (List.length l)) l)))
  /\ Forall (fun i => (a <= i < a + List.length l)%nat)
            (map fst (filter p (combine (seq a (List.length l)) l))).
Proof.
  revert a; induction l as [|x l IH]; intros a; simpl; [split; constructor|].
  destruct (IH (S a)) as [Hs Hf].
  assert (Hf' : Forall (fun i => (a <= i < a + S (List.length l))%nat)
                  (map fst (filter p (combine (seq (S a) (List.length l)) l)))).
  { eapply Forall_impl; [|exact Hf]; simpl; intros; lia. }
  destruct (p (a, x)); simpl; split; try assumption.
  - constructor; [exact Hs|].
    eapply Forall_impl; [|exact Hf]; simpl; intros; lia.
  - constructor; [lia | exact Hf'].
Qed.

Lemma ffill_from_length (last : float) (s : list float) :
  List.length (ffill_from last s) = List.length s.
Proof.
  revert last; induction s as [|x s IH]; intros last; simpl; [reflexivity|].
  destruct (is_nan x); simpl; now rewrite IH.
Qed.

(** The flagged months come in the order of the series, each once, and
    each is a month of the series. *)
Theorem flagged_in_order (s : list float) :
  StronglySorted lt (flagged s)
  /\ Forall (fun i => (i < List.length s)%nat) (flagged s).
Proof.
  unfold flagged, drops, enumerate.
  destruct (filter_enumerate_sorted (fun iv => (snd iv <? -50)%float)
              (monthly_changes s) 0) as [Hs Hf].
  split; [exact Hs|].
  eapply Forall_impl; [|exact Hf]; simpl; intros i [_ Hi].
  unfold monthly_changes, pct_change, shift in Hi.
  rewrite !length_map, length_combine in Hi.
  unfold ffill in Hi; rewrite ffill_from_length in Hi; lia.
Qed.

(** ** The statements above on the sample data *)

Ltac one_row_keyed :=
  split; [reflexivity|]; split; [simpl; lia|]; split; [reflexivity|]; split;
  [ intros row [<-|[]]; split; [reflexivity|];
    exists 1%Z; split; [reflexivity | simpl; lia]
  | repeat constructor; simpl; tauto ].

Lemma clean_row_by_row_witness :
  exists ia idt,
    col_index "Amount" (columns sample_csv) = Some ia
    /\ col_index "Date" (columns sample_csv) = Some idt
    /\ mapM (clean_row float_of_decimal strptime_dby (columns sample_csv) ia idt)
            (rows sample_csv) = Ok (rows sample_clean)
    /\ List.length (rows sample_clean) = List.length (rows sample_csv).
Proof.
  apply (clean_row_by_row float_of_decimal strptime_dby sample_csv sample_clean).
  reflexivity.
Defined.

Lemma clean_keeps_other_cells_witness :
  get 2 [Str "Van Tuxwell"; Str "India"; Str "85% Dark Bars"; Str "2022-08-01";
         Float 7896; Int 94; Str "Wholesale"]
  = get 2 [Str "Van Tuxwell"; Str "India"; Str "85% Dark Bars"; Str "01-Aug-22";
           Str "$7,896 "; Int 94].
Proof.
  apply (clean_keeps_other_cells float_of_decimal strptime_dby sample_csv
           sample_clean) with (k := 1%nat).
  - intros row [<-|[<-|[<-|[]]]]; reflexivity.
  - reflexivity.
  - reflexivity.
  - reflexivity.
  - simpl; lia.
  - discriminate.
  - discriminate.
  - discriminate.
Defined.

Lemma anomalies_after_ingestion_witness :
  exists i out,
    col_index "amount" (columns sample_clean) = Some i
    /\ (forall row, In row (rows sample_clean) -> exists f, get i row = Float f)
    /\ anomalies sample_clean = Ok out
    /\ forall row, In row (rows out) -> In row (rows sample_clean).
Proof.
  apply (anomalies_after_ingestion float_of_decimal strptime_dby sample_csv
           sample_clean).
  - intros row [<-|[<-|[<-|[]]]]; reflexivity.
  - reflexivity.
  - reflexivity.
Defined.

Lemma malformed_amount_aborts_witness :
  clean float_of_decimal strptime_dby broken_csv = Raise ValueError
  /\ load_data float_of_decimal strptime_dby broken_csv = Raise ValueError.
Proof.
  apply (malformed_amount_aborts float_of_decimal strptime_dby broken_csv 4
           [Str "Van Tuxwell"; Str "India"; Str "85% Dark Bars"; Str "01-Aug-22";
            Str "n/a"; Int 94] ValueError).
  - reflexivity.
  - simpl; tauto.
  - reflexivity.
Defined.


Lemma add_sale_appends_witness :
  absent (last_id one_row_table + 1) one_row_table
  /\ add_sale sample_form one_row_table
     = Ok (reloaded
             (mkTable true (last_id one_row_table + 1)
                (mkFrame sales_columns
                   (rows (content one_row_table)
                    ++ [Int (last_id one_row_table + 1) :: form_cells sample_form])))
             "Sale added").
Proof. apply (add_sale_appends sample_form one_row_table); one_row_keyed. Defined.

Lemma update_sale_overwrites_witness :
  update_sale sample_form 1 one_row_table
  = Ok (reloaded
          (mkTable true (last_id one_row_table)
             (mkFrame sales_columns
                (map (fun row => if sql_eq_id (get 0 row) 1
                                 then get 0 row :: form_cells sample_form else row)
                     (rows (content one_row_table)))))
          "Sale updated").
Proof. apply (update_sale_overwrites sample_form 1 one_row_table); one_row_keyed. Defined.

Lemma override_changes_sale_type_only_witness :
  override_sale_type "Wholesale" 1 one_row_table
  = Ok (reloaded
          (mkTable true (last_id one_row_table)
             (mkFrame sales_columns
                (map (fun row => if sql_eq_id (get 0 row) 1
                                 then set_nth 7 (Str "Wholesale") row else row)
                     (rows (content one_row_table)))))
          "Sale type updated").
Proof.
  apply (override_changes_sale_type_only "Wholesale" 1 one_row_table); one_row_keyed.
Defined.

Lemma delete_sale_removes_witness :
  exists t',
    delete_sale 1 one_row_table = Ok (reloaded t' "Sale deleted")
    /\ columns (content t') = columns (content one_row_table)
    /\ rows (content t')
       = filter (fun row => negb (matches one_row_table 1 row))
                (rows (content one_row_table))
    /\ absent 1 t'
    /\ delete_sale 1 t' = Ok (reloaded t' "Sale deleted").
Proof. apply (delete_sale_removes 1 one_row_table); reflexivity. Defined.


Lemma add_sale_after_ingestion_witness :
  add_sale sample_form (mkTable false 0 sample_clean)
  = Ok (reloaded
          (mkTable false 0
             (mkFrame canonical_columns
                (map (map sql_value) (rows sample_clean) ++ [form_cells sample_form])))
          "Sale added").
Proof.
  apply (add_sale_after_ingestion float_of_decimal strptime_dby sample_csv
           sample_clean (mkTable false 0 sample_clean) sample_form);
    reflexivity.
Defined.

Lemma register_then_login_witness :
  authenticate_user no_markup plain_verify "alice" "secret"
    [mkUser "alice" "secret" "Sales Rep"]
  = (true, Some "Sales Rep").
Proof.
  apply (register_then_login no_markup plain_hash plain_verify
           "salt" "alice" "secret" "Sales Rep" []).
  - intros s p; apply String.eqb_refl.
  - reflexivity.
Defined.

Lemma registration_keeps_accounts_witness :
  add_user no_markup plain_hash "salt" "alice" "other" "Owner"
    [mkUser "alice" "secret" "Sales Rep"]
  = (false, [mkUser "alice" "secret" "Sales Rep"]).
Proof.
  apply (proj1 (registration_keeps_accounts no_markup plain_hash
                  "salt" "alice" "other" "Owner"
                  [mkUser "alice" "secret" "Sales Rep"])).
  simpl; tauto.
Defined.

Lemma registration_keeps_names_distinct_witness :
  NoDup (map user_name
           (snd (add_user no_markup plain_hash "salt" "bob" "pw" "Owner"
                   [mkUser "alice" "secret" "Sales Rep"]))).
Proof.
  apply (registration_keeps_names_distinct no_markup plain_hash
           "salt" "bob" "pw" "Owner" [mkUser "alice" "secret" "Sales Rep"]).
  repeat constructor; simpl; tauto.
Defined.

Lemma forecast_dates_follow_witness :
  List.length (forecast_dates (mkDate 2022 11 1) 6) = 6%nat
  /\ forall k, (k < 6)%nat ->
       nth_error (forecast_dates (mkDate 2022 11 1) 6) k
       = Some (mkDate (2022 + (11 + Z.of_nat k) / 12)
                      ((11 + Z.of_nat k) mod 12 + 1) 1).
Proof. apply (forecast_dates_follow (mkDate 2022 11 1) 6); simpl; lia. Defined.

Example forecast_over_new_year :
  forecast_dates (mkDate 2022 11 1) 3
  = [mkDate 2022 12 1; mkDate 2023 1 1; mkDate 2023 2 1].
Proof. reflexivity. Qed.

Lemma add_category_appends_witness :
  ((forall row, In row (rows sample_clean) -> exists s, get 2 row = Str s) ->
   add_category sample_clean
   = Ok (mkFrame (columns sample_clean ++ ["Category"])
           (map (fun row => row ++ [Str (categorize_product (text (get 2 row)))])
                (rows sample_clean))))
  /\ ((exists row, In row (rows sample_clean) /\ forall s, get 2 row <> Str s) ->
      add_category sample_clean = Raise TypeError).
Proof. apply (add_category_appends sample_clean 2); reflexivity. Defined.

Lemma sales_rep_alert_is_own_witness :
  get 0 (one_sale "Alice" just_above_15000 ++ [Str "Other"]) = Str "Alice"
  /\ exists r,
       In r (rows at_the_threshold) /\ get 0 r = Str "Alice"
       /\ forall c, (c < List.length (columns at_the_threshold))%nat ->
                    col_index "Category" (columns at_the_threshold) <> Some c ->
                    get c (one_sale "Alice" just_above_15000 ++ [Str "Other"])
                    = get c r.
Proof.
  apply (sales_rep_alert_is_own "Alice" at_the_threshold
           (mkFrame canonical_columns [one_sale "Alice" just_above_15000])
           (mkFrame canonical_columns [one_sale "Alice" just_above_15000])
           (mkFrame (canonical_columns ++ ["Category"])
                    [one_sale "Alice" just_above_15000 ++ [Str "Other"]])
           (mkFrame (canonical_columns ++ ["Category"])
                    [one_sale "Alice" just_above_15000 ++ [Str "Other"]]) 0).
  - intros row [<-|[<-|[]]]; reflexivity.
  - reflexivity.
  - reflexivity.
  - reflexivity.
  - intros row H; exact H.
  - reflexivity.
  - reflexivity.
  - left; reflexivity.
Defined.
